(** * Stat synthesis engine of the trading-card generator (Backend/main.py)

    A shallow embedding of the chain
      simulate_vision_analysis -> extract_creature_characteristics ->
      generate_stats_from_analysis -> generate_creature_name /
      generate_contextual_attacks / generate_flavor_text
    and the properties its specification states about it.

    Conventions of the embedding.
    - A Python [str] is a [string]; its characters are the code points
      below 256, so [lower], [split] and [isspace] follow the Unicode
      tables of CPython on that range.
    - A Python [float] is an IEEE 754 binary64 number, here a [spec_float]
      with the Standard Library's operations at precision 53 and maximal
      exponent 1024 (round to nearest, ties to even).
    - A Python [dict] literal is an association list in insertion order,
      which is the order [items()] and [keys()] iterate in.
    - The module-level generator of [random] is threaded explicitly: the
      state is the stream of the draws still to come, and each call of
      [random.random], [random.randint] or [random.choice] takes one.
    - An exception is a [Raise] outcome of the state-and-error monad [M].

    The engine comes first, then its callers: the endpoint [/generate],
    with the directory listing and the clock readings as inputs, and the
    legacy [generate_card_metadata].  The other endpoints read and write
    files or return constants and are not embedded.  The embedding is
    followed by the definitions the statements use, the lemmas, the
    properties of the specification, one section for each, and the
    further properties of the code. *)

From Stdlib Require Import ZArith List Bool Ascii String Lia.
From Stdlib Require Import Floats.SpecFloat.
From Stdlib Require Import DecimalString.
Import ListNotations.

Local Open Scope string_scope.
Local Open Scope Z_scope.

Set Implicit Arguments.

(** ** Python strings *)

Module Str.

Definition code (c : ascii) : N := N_of_ascii c.

Definition in_range (lo hi n : N) : bool := ((lo <=? n) && (n <=? hi))%N.

(** [str.isspace] on one character: TAB..CR, FS..US, space, NEL, NBSP. *)
Definition isspace (c : ascii) : bool :=
  let n := code c in
  in_range 9 13 n || in_range 28 31 n || (n =? 32)%N || (n =? 133)%N || (n =? 160)%N.

(** Upper-case letters below 256: A..Z and the Latin-1 capitals, the
    multiplication sign (215) excepted. *)
Definition isupper (c : ascii) : bool :=
  let n := code c in
  in_range 65 90 n || (in_range 192 222 n && negb (n =? 215)%N).

Definition lower_char (c : ascii) : ascii :=
  if isupper c then ascii_of_N (code c + 32) else c.

(** [str.lower]. *)
Fixpoint lower (s : string) : string :=
  match s with
  | EmptyString => EmptyString
  | String c s' => String (lower_char c) (lower s')
  end.

Definition is_ascii_lower (c : ascii) : bool := in_range 97 122 (code c).
Definition is_ascii_upper (c : ascii) : bool := in_range 65 90 (code c).

Definition upper_char (c : ascii) : ascii :=
  if is_ascii_lower c then ascii_of_N (code c - 32) else c.

(** [str.title], which the source applies to the keys of
    [element_keywords] only, all of them lower-case ASCII words: a letter
    that follows a letter is lower-cased, any other letter is
    upper-cased. *)
Fixpoint title_from (prev_cased : bool) (s : string) : string :=
  match s with
  | EmptyString => EmptyString
  | String c s' =>
      let cased := is_ascii_lower c || is_ascii_upper c in
      String (if prev_cased then lower_char c else upper_char c)
             (title_from cased s')
  end.

Definition title (s : string) : string := title_from false s.

(** [needle in hay]: substring test. *)
Fixpoint contains (needle hay : string) : bool :=
  prefix needle hay ||
  match hay with
  | EmptyString => false
  | String _ hay' => contains needle hay'
  end.

Definition is_empty (s : string) : bool :=
  match s with EmptyString => true | _ => false end.

(** [str.split()] without argument: the maximal runs of characters that
    are not white space; [word] is the run being read. *)
Fixpoint split_from (word s : string) : list string :=
  match s with
  | EmptyString => if is_empty word then [] else [word]
  | String c s' =>
      if isspace c
      then (if is_empty word then split_from "" s' else word :: split_from "" s')
      else split_from (word ++ String c "") s'
  end.

Definition split (s : string) : list string := split_from "" s.

(** [len(s)]. *)
Definition len (s : string) : Z := Z.of_nat (String.length s).

(** [str(n)] for an integer. *)
Definition of_int (n : Z) : string := NilZero.string_of_int (Z.to_int n).

End Str.

(** ** Python floats *)

Module Float.

Definition float : Set := spec_float.

Definition prec : Z := 53.
Definition emax : Z := 1024.

Definition mul : float -> float -> float := SFmul prec emax.
Definition add : float -> float -> float := SFadd prec emax.
Definition div : float -> float -> float := SFdiv prec emax.
Definition ltb : float -> float -> bool := SFltb.
Definition leb : float -> float -> bool := SFleb.

(** Conversion of an [int] operand in mixed arithmetic, rounded to
    nearest-even.  CPython raises OverflowError from 2^1024 on, where
    this gives an infinity; the integers converted here are word counts
    and table constants, far below. *)
Definition of_int (z : Z) : float := binary_normalize prec emax z 0 false.

(** The decimal literal [num/den], correctly rounded. *)
Definition lit (num den : Z) : float := div (of_int num) (of_int den).

(** The value [k / 2^53] that [random.random] builds from 53 random
    bits. *)
Definition of_bits53 (k : Z) : float := binary_normalize prec emax k (-53) false.

End Float.

(** ** Exceptions, the generator and the monad *)

Inductive exn : Set :=
| IndexError | KeyError | UnboundLocalError | OverflowError | ValueError.

Inductive outcome (A : Type) : Type :=
| Ok (a : A)
| Raise (e : exn).
Arguments Ok {A} a.
Arguments Raise {A} e.

(** The draws still to come. *)
Definition Rng : Type := nat -> Z.

Definition M (A : Type) : Type := Rng -> outcome (A * Rng).

Definition ret {A} (a : A) : M A := fun g => Ok (a, g).
Definition raise {A} (e : exn) : M A := fun _ => Raise e.
Definition bind {A B} (m : M A) (f : A -> M B) : M B :=
  fun g =>
    match m g with
    | Ok (a, g') => f a g'
    | Raise e => Raise e
    end.

Notation "x <- m ;; k" := (bind m (fun x => k))
  (at level 61, m at next level, right associativity).
Notation "' pat <- m ;; k" := (bind m (fun x => match x with pat => k end))
  (at level 61, pat pattern, m at next level, right associativity).

Definition lift {A} (o : exn + A) : M A :=
  match o with
  | inl e => raise e
  | inr a => ret a
  end.

(** The value a computation returns, its final generator state dropped. *)
Definition result {A} (o : outcome (A * Rng)) : outcome A :=
  match o with
  | Ok (a, _) => Ok a
  | Raise e => Raise e
  end.

Module Random.

Definition next : M Z := fun g => Ok (g O, fun i => g (S i)).

(** [random.random()]: a float in [0, 1). *)
Definition random : M Float.float :=
  d <- next ;; ret (Float.of_bits53 (d mod 2 ^ 53)).

(** [_randbelow(n)]: an integer in [0, n). *)
Definition randbelow (n : Z) : M Z :=
  d <- next ;; ret (d mod n).

(** [random.randint(a, b)]: an integer in [a, b]. *)
Definition randint (a b : Z) : M Z :=
  k <- randbelow (b - a + 1) ;; ret (a + k).

(** [random.choice(seq)]: IndexError on an empty sequence. *)
Definition choice {A} (seq : list A) : M A :=
  match seq with
  | [] => raise IndexError
  | _ :: _ =>
      k <- randbelow (Z.of_nat (List.length seq)) ;;
      match nth_error seq (Z.to_nat k) with
      | Some a => ret a
      | None => raise IndexError
      end
  end.

End Random.

(** ** Dictionaries *)

Module Dict.

Definition dict (V : Type) : Type := list (string * V).

Fixpoint find {V} (d : dict V) (k : string) : option V :=
  match d with
  | [] => None
  | (k', v) :: d' => if String.eqb k k' then Some v else find d' k
  end.

(** [d.get(k, default)]. *)
Definition get {V} (d : dict V) (k : string) (default : V) : V :=
  match find d k with
  | Some v => v
  | None => default
  end.

(** [d[k]]. *)
Definition item {V} (d : dict V) (k : string) : exn + V :=
  match find d k with
  | Some v => inr v
  | None => inl KeyError
  end.

Definition keys {V} (d : dict V) : list string := map fst d.

End Dict.

(** [int(x)] of a float: truncation towards zero; OverflowError on an
    infinity and ValueError on a NaN. *)
Definition int_of_float (x : Float.float) : exn + Z :=
  match x with
  | S754_zero _ => inr 0
  | S754_finite s m e =>
      let a := Z.shiftl (Zpos m) e in
      inr (if s then - a else a)
  | S754_infinity _ => inl OverflowError
  | S754_nan => inl ValueError
  end.

(** ** Data model *)

Module Attack.
Record t : Set := mk { name : string; damage : Z; description : string }.
End Attack.

Module CardMetadata.
Record t : Set := mk {
  name : string;
  hp : Z;
  type : string;
  rarity : string;
  flavorText : string;
  attacks : list Attack.t
}.
End CardMetadata.

(** The dictionary [extract_creature_characteristics] returns. *)
Record Characteristics : Set := mkCharacteristics {
  creature_type : string;
  combat_styles : list string;
  descriptors : list string
}.

(** The dictionary [simulate_vision_analysis] returns. *)
Record Analysis : Set := mkAnalysis {
  apparent_power_level : Float.float;
  detected_element : string;
  complexity_score : Z;
  creature_characteristics : Characteristics;
  original_prompt : string
}.

(** A template of [attack_templates]: name, base damage, description. *)
Definition Template : Set := (string * Z * string)%type.

(** ** extract_creature_characteristics *)

(** [any(keyword in prompt_lower for keyword in keywords)]. *)
Definition any_in (keywords : list string) (prompt_lower : string) : bool :=
  existsb (fun keyword => Str.contains keyword prompt_lower) keywords.

Definition creature_types : Dict.dict (list string) :=
  [ ("dragon", ["dragon"; "drake"; "wyrm"]);
    ("wolf", ["wolf"; "dire wolf"; "fenrir"]);
    ("bird", ["eagle"; "phoenix"; "hawk"; "raven"]);
    ("beast", ["tiger"; "lion"; "bear"; "panther"]);
    ("elemental", ["elemental"; "spirit"; "wisp"]);
    ("demon", ["demon"; "devil"; "fiend"]);
    ("angel", ["angel"; "seraph"; "cherub"]);
    ("undead", ["skeleton"; "zombie"; "lich"; "ghost"]) ].

(** The loop [for creature_type, keywords in creature_types.items()] with
    its [break]; [detected_type] is the value assigned so far. *)
Fixpoint detect_type (items : Dict.dict (list string)) (prompt_lower : string)
    (detected_type : string) : string :=
  match items with
  | [] => detected_type
  | (creature_type, keywords) :: items' =>
      if any_in keywords prompt_lower then creature_type
      else detect_type items' prompt_lower detected_type
  end.

Definition slashing_words : list string := ["claws"; "talons"; "sharp"].
Definition fire_words : list string := ["fire"; "flame"; "burning"].
Definition magic_words : list string := ["magic"; "spell"; "enchanted"].
Definition biting_words : list string := ["bite"; "teeth"; "fangs"].

Definition extract_creature_characteristics (prompt : string) : Characteristics :=
  let prompt_lower := Str.lower prompt in
  let detected_type := detect_type creature_types prompt_lower "beast" in
  let combat_styles := [] in
  let combat_styles :=
    if any_in slashing_words prompt_lower then (combat_styles ++ ["slashing"])%list else combat_styles in
  let combat_styles :=
    if any_in fire_words prompt_lower then (combat_styles ++ ["fire"])%list else combat_styles in
  let combat_styles :=
    if any_in magic_words prompt_lower then (combat_styles ++ ["magic"])%list else combat_styles in
  let combat_styles :=
    if any_in biting_words prompt_lower then (combat_styles ++ ["biting"])%list else combat_styles in
  {| creature_type := detected_type;
     combat_styles := match combat_styles with [] => ["physical"] | _ => combat_styles end;
     descriptors := filter (fun word => 4 <? Str.len word) (Str.split prompt_lower) |}.

(** ** simulate_vision_analysis *)

Definition size_indicators : Dict.dict Float.float :=
  [ ("tiny", Float.lit 3 10); ("small", Float.lit 5 10); ("young", Float.lit 6 10);
    ("medium", Float.lit 7 10); ("large", Float.lit 12 10); ("huge", Float.lit 15 10);
    ("massive", Float.lit 18 10); ("giant", Float.lit 20 10); ("ancient", Float.lit 16 10);
    ("elder", Float.lit 14 10); ("baby", Float.lit 4 10); ("mighty", Float.lit 13 10) ].

(** The loop [for indicator, multiplier in size_indicators.items()] with
    its [break]. *)
Fixpoint detect_power (items : Dict.dict Float.float) (prompt_lower : string)
    (power_multiplier : Float.float) : Float.float :=
  match items with
  | [] => power_multiplier
  | (indicator, multiplier) :: items' =>
      if Str.contains indicator prompt_lower then multiplier
      else detect_power items' prompt_lower power_multiplier
  end.

Definition element_keywords : Dict.dict (list string) :=
  [ ("fire", ["fire"; "flame"; "lava"; "magma"; "ember"; "phoenix"; "dragon"]);
    ("water", ["water"; "ice"; "frost"; "ocean"; "sea"; "aquatic"; "whale"]);
    ("earth", ["rock"; "stone"; "earth"; "mountain"; "crystal"; "gem"]);
    ("air", ["wind"; "storm"; "cloud"; "lightning"; "thunder"; "eagle"]);
    ("dark", ["shadow"; "dark"; "void"; "nightmare"; "demon"; "evil"]);
    ("light", ["light"; "holy"; "angel"; "divine"; "celestial"; "bright"]) ].

(** The loop [for element, keywords in element_keywords.items()] with its
    [break]. *)
Fixpoint detect_element (items : Dict.dict (list string)) (prompt_lower : string)
    (detected_element : string) : string :=
  match items with
  | [] => detected_element
  | (element, keywords) :: items' =>
      if any_in keywords prompt_lower then Str.title element
      else detect_element items' prompt_lower detected_element
  end.

Definition complexity_words : list string := ["legendary"; "ancient"; "mythical"].

(** The [await asyncio.sleep(0.5)] of the source delays the caller and
    nothing else; [image_url] is received and never read. *)
Definition simulate_vision_analysis (image_url prompt : string) : Analysis :=
  let prompt_lower := Str.lower prompt in
  let power_multiplier := detect_power size_indicators prompt_lower (Float.lit 10 10) in
  let detected_element := detect_element element_keywords prompt_lower "Fire" in
  let complexity_score :=
    Z.of_nat (List.length (Str.split prompt))
    + (if any_in complexity_words prompt_lower then 2 else 0) in
  {| apparent_power_level := power_multiplier;
     detected_element := detected_element;
     complexity_score := complexity_score;
     creature_characteristics := extract_creature_characteristics prompt;
     original_prompt := prompt |}.

(** ** generate_creature_name *)

Definition element_prefixes : Dict.dict (list string) :=
  [ ("Fire", ["Flame"; "Ember"; "Blaze"; "Inferno"; "Cinder"]);
    ("Water", ["Frost"; "Ice"; "Wave"; "Tide"; "Storm"]);
    ("Earth", ["Stone"; "Rock"; "Crystal"; "Granite"; "Iron"]);
    ("Air", ["Wind"; "Storm"; "Thunder"; "Lightning"; "Gale"]);
    ("Dark", ["Shadow"; "Void"; "Night"; "Dread"; "Gloom"]);
    ("Light", ["Dawn"; "Radiant"; "Celestial"; "Divine"; "Bright"]) ].

Definition type_suffixes : Dict.dict (list string) :=
  [ ("dragon", ["drake"; "wyrm"; "wing"; "scale"; "claw"]);
    ("wolf", ["fang"; "howl"; "pack"; "moon"; "wild"]);
    ("bird", ["wing"; "talon"; "soar"; "sky"; "flight"]);
    ("beast", ["claw"; "roar"; "hunt"; "prowl"; "fierce"]);
    ("elemental", ["spirit"; "essence"; "force"; "energy"; "core"]);
    ("demon", ["spawn"; "fiend"; "terror"; "doom"; "bane"]);
    ("angel", ["wing"; "light"; "grace"; "holy"; "divine"]);
    ("undead", ["bone"; "soul"; "wraith"; "specter"; "shade"]) ].

Definition generate_creature_name (characteristics : Characteristics) (element : string)
    : M string :=
  let creature_type := creature_type characteristics in
  let descriptors := descriptors characteristics in
  prefix <- Random.choice (Dict.get element_prefixes element ["Ancient"]) ;;
  suffix <- Random.choice (Dict.get type_suffixes creature_type ["beast"]) ;;
  ret (prefix ++ suffix).

(** ** generate_contextual_attacks *)

Definition attack_templates : Dict.dict (Dict.dict (list Template)) :=
  [ ("Fire",
      [ ("slashing", [("Flame Claw", 35, "Slashes with burning claws")]);
        ("fire", [("Inferno Blast", 45, "Unleashes a torrent of flames")]);
        ("magic", [("Fire Storm", 40, "Conjures a magical fire storm")]);
        ("biting", [("Ember Bite", 30, "Bites with flame-wreathed fangs")]) ]);
    ("Water",
      [ ("slashing", [("Ice Claw", 32, "Strikes with frozen talons")]);
        ("fire", [("Steam Burst", 38, "Superheated water explosion")]);
        ("magic", [("Tidal Wave", 42, "Summons a crushing wave")]);
        ("biting", [("Frost Bite", 28, "Freezing bite that slows enemies")]) ]);
    ("Earth",
      [ ("slashing", [("Stone Claw", 38, "Cuts with razor-sharp stone")]);
        ("magic", [("Earthquake", 50, "Shakes the ground violently")]);
        ("physical", [("Boulder Throw", 45, "Hurls massive rocks")]) ]);
    ("Air",
      [ ("slashing", [("Wind Blade", 35, "Cuts with compressed air")]);
        ("magic", [("Lightning Strike", 48, "Calls down electric fury")]);
        ("physical", [("Gust Slam", 40, "Powerful wind attack")]) ]);
    ("Dark",
      [ ("slashing", [("Shadow Claw", 36, "Strikes from darkness")]);
        ("magic", [("Void Drain", 25, "Drains life force from enemy")]);
        ("physical", [("Terror Strike", 42, "Frightening physical assault")]) ]);
    ("Light",
      [ ("slashing", [("Radiant Slash", 38, "Cuts with holy light")]);
        ("magic", [("Divine Ray", 44, "Blasts with pure light")]);
        ("physical", [("Blessing Strike", 35, "Heals self while attacking")]) ]) ].

Definition utility_attacks (hp : Z) : Dict.dict Template :=
  [ ("heal", ("Regenerate", 0, "Restores " ++ Str.of_int (hp / 5) ++ " HP"));
    ("shield", ("Fortify", 0, "Reduces next attack by 50%"));
    ("buff", ("Power Up", 0, "Next attack deals double damage")) ].

Definition damage_multipliers : Dict.dict Float.float :=
  [ ("Common", Float.lit 9 10); ("Uncommon", Float.lit 10 10); ("Rare", Float.lit 11 10);
    ("Epic", Float.lit 12 10); ("Legendary", Float.lit 13 10) ].

Definition generic_strike : list Template := [("Strike", 30, "Basic attack")].

Definition basic_strike : Attack.t :=
  Attack.mk "Basic Strike" 25 "A simple but effective attack".

(** Truth value of a list. *)
Definition truthy {A} (l : list A) : bool :=
  match l with [] => false | _ => true end.

(** A local variable read before any assignment to it. *)
Definition bound {A} (v : option A) : M A :=
  match v with
  | Some a => ret a
  | None => raise UnboundLocalError
  end.

(** The list the primary attack is drawn from (line 369). *)
Definition primary_templates (element_attacks : Dict.dict (list Template))
    (primary_style : string) : list Template :=
  Dict.get element_attacks primary_style
    (Dict.get element_attacks "physical" generic_strike).

(** The list the offensive secondary attack is drawn from (line 383). *)
Definition secondary_templates (element_attacks : Dict.dict (list Template))
    (secondary_style : string) (style_attacks : list Template) : list Template :=
  Dict.get element_attacks secondary_style style_attacks.

Definition generate_contextual_attacks (characteristics : Characteristics)
    (element : string) (hp : Z) (rarity : string) : M (list Attack.t) :=
  let creature_type := creature_type characteristics in
  let combat_styles := combat_styles characteristics in
  let utility_attacks := utility_attacks hp in
  let attacks : list Attack.t := [] in
  let primary_style := match combat_styles with s :: _ => s | [] => "physical" end in
  fire_attacks <- lift (Dict.item attack_templates "Fire") ;;
  let element_attacks := Dict.get attack_templates element fire_attacks in
  let style_attacks := primary_templates element_attacks primary_style in
  '(attacks, damage_multiplier) <-
    (if truthy style_attacks then
       '(attack_name, base_damage, description) <- Random.choice style_attacks ;;
       damage_multiplier <- lift (Dict.item damage_multipliers rarity) ;;
       scaled <- lift (int_of_float (Float.mul (Float.of_int base_damage) damage_multiplier)) ;;
       let final_damage := Z.max 15 scaled in
       ret ((attacks ++ [Attack.mk attack_name final_damage description])%list,
            Some damage_multiplier)
     else ret (attacks, None)) ;;
  u <- Random.random ;;
  attacks <-
    (if Float.ltb u (Float.lit 7 10) then
       let secondary_styles :=
         if 1 <? Z.of_nat (List.length combat_styles) then tl combat_styles else ["magic"] in
       match secondary_styles with
       | secondary_style :: _ =>
           let secondary_attacks :=
             secondary_templates element_attacks secondary_style style_attacks in
           if truthy secondary_attacks then
             '(attack_name, base_damage, description) <- Random.choice secondary_attacks ;;
             damage_multiplier <- bound damage_multiplier ;;
             scaled <- lift (int_of_float
                         (Float.mul (Float.mul (Float.of_int base_damage) damage_multiplier)
                                    (Float.lit 8 10))) ;;
             let final_damage := Z.max 10 scaled in
             ret (attacks ++ [Attack.mk attack_name final_damage description])%list
           else ret attacks
       | [] => ret attacks
       end
     else
       utility_type <- Random.choice (Dict.keys utility_attacks) ;;
       '(attack_name, damage, description) <- lift (Dict.item utility_attacks utility_type) ;;
       ret (attacks ++ [Attack.mk attack_name damage description])%list) ;;
  let attacks :=
    if Z.of_nat (List.length attacks) <? 2 then (attacks ++ [basic_strike])%list else attacks in
  ret (firstn 2 attacks).

(** ** generate_flavor_text *)

Definition flavor_templates : Dict.dict (list string) :=
  [ ("dragon",
      [ "Ancient and wise, this dragon commands respect from all who encounter it.";
        "Born from the heart of a volcano, its rage burns eternal.";
        "Legends speak of its hoard hidden deep in mountain caves." ]);
    ("wolf",
      [ "A lone hunter that stalks its prey through moonlit forests.";
        "Leader of the pack, feared by all woodland creatures.";
        "Its howl echoes through the night, calling its kin to hunt." ]);
    ("bird",
      [ "Soaring high above the clouds, it surveys its domain below.";
        "Its keen eyes miss nothing as it patrols the skies.";
        "Graceful in flight, deadly when it strikes." ]);
    ("beast",
      [ "A fierce predator that rules its territory with strength.";
        "Its roar can be heard for miles, warning others to stay away.";
        "Perfectly adapted to survive in the harshest conditions." ]);
    ("elemental",
      [ "A manifestation of pure elemental energy given form.";
        "It exists between the physical and spiritual realms.";
        "Ancient magic binds this creature to the natural world." ]) ].

Definition generate_flavor_text (characteristics : Characteristics)
    (original_prompt : string) : M string :=
  let creature_type := creature_type characteristics in
  beast_templates <- lift (Dict.item flavor_templates "beast") ;;
  let templates := Dict.get flavor_templates creature_type beast_templates in
  Random.choice templates.

(** ** generate_stats_from_analysis *)

(** The [if]/[elif] chain of lines 247 to 256; the thresholds are [int]
    constants, and a float compares with an [int] by value. *)
Definition rarity_of_score (rarity_score : Float.float) : string :=
  let rarity := "Common" in
  if Float.leb (Float.of_int 12) rarity_score then "Legendary"
  else if Float.leb (Float.of_int 9) rarity_score then "Epic"
  else if Float.leb (Float.of_int 6) rarity_score then "Rare"
  else if Float.leb (Float.of_int 4) rarity_score then "Uncommon"
  else rarity.

Definition rarity_score_of (complexity : Z) (power_level : Float.float) : Float.float :=
  Float.add (Float.of_int complexity) (Float.mul power_level (Float.of_int 2)).

Definition generate_stats_from_analysis (analysis : Analysis) : M CardMetadata.t :=
  let power_level := apparent_power_level analysis in
  let complexity := complexity_score analysis in
  u <- Random.random ;;
  base_hp <- (if Float.ltb u (Float.lit 8 10)
              then Random.randint 40 100
              else Random.randint 100 150) ;;
  scaled <- lift (int_of_float (Float.mul (Float.of_int base_hp) power_level)) ;;
  let final_hp := Z.max 20 (Z.min 150 scaled) in
  let rarity_score := rarity_score_of complexity power_level in
  let rarity := rarity_of_score rarity_score in
  name <- generate_creature_name (creature_characteristics analysis)
            (detected_element analysis) ;;
  attacks <- generate_contextual_attacks (creature_characteristics analysis)
               (detected_element analysis) final_hp rarity ;;
  flavor_text <- generate_flavor_text (creature_characteristics analysis)
                   (original_prompt analysis) ;;
  ret (CardMetadata.mk name final_hp (detected_element analysis) rarity flavor_text attacks).

(** ** analyze_image_and_generate_stats: the engine's entry point *)

Definition analyze_image_and_generate_stats (image_url original_prompt : string)
    : M CardMetadata.t :=
  let vision_analysis := simulate_vision_analysis image_url original_prompt in
  generate_stats_from_analysis vision_analysis.

(** * Definitions for the statements *)

Unset Implicit Arguments.

(** ** The generator: what is left after [n] draws *)

Definition drop (n : nat) (g : Rng) : Rng := fun i => g (n + i)%nat.

(** [wp m Q g]: run from generator state [g], the computation [m] returns
    (it raises nothing) and its value and final state satisfy [Q]. *)
Definition wp {A} (m : M A) (Q : A -> Rng -> Prop) (g : Rng) : Prop :=
  match m g with
  | Ok (a, g') => Q a g'
  | Raise _ => False
  end.

(** ** The constant tables *)

(** The module-level lists of lines 92 and 93. *)
Definition CREATURE_TYPES : list string := ["Fire"; "Water"; "Earth"; "Air"; "Dark"; "Light"].
Definition RARITIES : list string := ["Common"; "Uncommon"; "Rare"; "Epic"; "Legendary"].

Definition is_int (o : exn + Z) : bool :=
  match o with inr z => 0 <=? z | inl _ => false end.

(** Both scalings of a template's base damage are finite and not
    negative, under every multiplier of the rarity table. *)
Definition template_ok (t : Template) : bool :=
  let '(_, base_damage, _) := t in
  forallb
    (fun dm =>
       is_int (int_of_float (Float.mul (Float.of_int base_damage) dm)) &&
       is_int (int_of_float
                 (Float.mul (Float.mul (Float.of_int base_damage) dm) (Float.lit 8 10))))
    (map snd damage_multipliers).

Definition templates_ok (l : list Template) : bool := truthy l && forallb template_ok l.

(** The dictionary of the element, [attack_templates["Fire"]] for a string
    that is no key. *)
Definition fire_attacks : Dict.dict (list Template) := Dict.get attack_templates "Fire" [].

Definition element_attacks_of (element : string) : Dict.dict (list Template) :=
  Dict.get attack_templates element fire_attacks.

(** ** generate_contextual_attacks, step by step *)

Definition primary_style_of (combat_styles : list string) : string :=
  match combat_styles with s :: _ => s | [] => "physical" end.

(** The next detected style, or [magic] when there is none. *)
Definition secondary_style_of (combat_styles : list string) : string :=
  match combat_styles with _ :: s :: _ => s | _ => "magic" end.

(** The outcome of the draw [random.random() < 0.7] at the head of [g]. *)
Definition offensive (g : Rng) : bool :=
  Float.ltb (Float.of_bits53 (g O mod 2 ^ 53)) (Float.lit 7 10).

Definition attack_of_template (t : Template) : Attack.t :=
  let '(n, dmg, d) := t in Attack.mk n dmg d.

(** What the two attacks are, in terms of the lists they are drawn from. *)
Definition attacks_post (chars : Characteristics) (element : string) (hp : Z)
    (dm : Float.float) (g : Rng) (attacks : list Attack.t) : Prop :=
  let element_attacks := element_attacks_of element in
  let style_attacks := primary_templates element_attacks (primary_style_of (combat_styles chars)) in
  exists a1 a2,
    attacks = [a1; a2] /\
    (exists n b d s,
       In (n, b, d) style_attacks /\
       int_of_float (Float.mul (Float.of_int b) dm) = inr s /\
       a1 = Attack.mk n (Z.max 15 s) d) /\
    (if offensive (drop 1 g)
     then exists n b d s,
         In (n, b, d) (secondary_templates element_attacks
                         (secondary_style_of (combat_styles chars)) style_attacks) /\
         int_of_float (Float.mul (Float.mul (Float.of_int b) dm) (Float.lit 8 10)) = inr s /\
         a2 = Attack.mk n (Z.max 10 s) d
     else In a2 (map (fun kv => attack_of_template (snd kv)) (utility_attacks hp))).

(** ** generate_creature_name and generate_flavor_text *)

Definition name_post (chars : Characteristics) (element name : string) : Prop :=
  exists prefix suffix,
    name = prefix ++ suffix /\
    In prefix (Dict.get element_prefixes element ["Ancient"]) /\
    In suffix (Dict.get type_suffixes (creature_type chars) ["beast"]).

Definition beast_flavor : list string := Dict.get flavor_templates "beast" [].

(** The list [generate_flavor_text] draws from. *)
Definition flavor_templates_of (creature_type : string) : list string :=
  Dict.get flavor_templates creature_type beast_flavor.

(** The text is the entry of the list at the index the draw selects. *)
Definition flavor_post (chars : Characteristics) (g : Rng) (text : string) : Prop :=
  let templates := flavor_templates_of (creature_type chars) in
  nth_error templates (Z.to_nat (g O mod Z.of_nat (List.length templates))) = Some text /\
  In text templates.

(** ** generate_stats_from_analysis *)

(** The outcome of the draw [random.random() < 0.8] at the head of [g]. *)
Definition low_range (g : Rng) : bool :=
  Float.ltb (Float.of_bits53 (g O mod 2 ^ 53)) (Float.lit 8 10).

(** The base HP the first two draws of [g] give. *)
Definition base_hp_of (g : Rng) : Z :=
  if low_range g then 40 + g 1%nat mod (100 - 40 + 1) else 100 + g 1%nat mod (150 - 100 + 1).

Definition rarity_of_analysis (analysis : Analysis) : string :=
  rarity_of_score
    (rarity_score_of (complexity_score analysis) (apparent_power_level analysis)).

Definition stats_post (analysis : Analysis) (s : Z) (dm : Float.float) (g : Rng)
    (card : CardMetadata.t) : Prop :=
  let chars := creature_characteristics analysis in
  CardMetadata.hp card = Z.max 20 (Z.min 150 s) /\
  CardMetadata.type card = detected_element analysis /\
  CardMetadata.rarity card = rarity_of_analysis analysis /\
  name_post chars (detected_element analysis) (CardMetadata.name card) /\
  attacks_post chars (detected_element analysis) (CardMetadata.hp card) dm (drop 4 g)
    (CardMetadata.attacks card) /\
  flavor_post chars (drop 7 g) (CardMetadata.flavorText card).

(** ** The whole pipeline *)

(** The values [power_multiplier] can take: the default and the table's. *)
Definition power_values : list Float.float := Float.lit 10 10 :: map snd size_indicators.

(** The values [base_hp] can take. *)
Definition hp_bases : list Z := map Z.of_nat (seq 40 111).

(** ** C3: rarity *)

(** The thresholds of the specification, from the highest down. *)
Definition rarity_thresholds : list (Z * string) :=
  [(12, "Legendary"); (9, "Epic"); (6, "Rare"); (4, "Uncommon")].

(** The specification's mapping: the tier of the first threshold the score
    reaches, [Common] when it reaches none. *)
Definition rarity_by_thresholds (rarity_score : Float.float) : string :=
  match List.find (fun th => Float.leb (Float.of_int (fst th)) rarity_score) rarity_thresholds with
  | Some th => snd th
  | None => "Common"
  end.

Fixpoint index_of (x : string) (l : list string) : nat :=
  match l with
  | [] => O
  | y :: l' => if String.eqb x y then O else S (index_of x l')
  end.

(** The place of a rarity in the ascending list [RARITIES]. *)
Definition tier (rarity : string) : nat := index_of rarity RARITIES.

(** ** C4: determinism *)

(** Two generators that give the same first [n] draws. *)
Definition agree (n : nat) (g1 g2 : Rng) : Prop :=
  forall i, (i < n)%nat -> g1 i = g2 i.

(** Two runs end alike: the same exception, or the same value with
    generators that agree on their next [k] draws. *)
Definition same_outcome {A} (k : nat) (o1 o2 : outcome (A * Rng)) : Prop :=
  match o1, o2 with
  | Ok (a1, g1'), Ok (a2, g2') => a1 = a2 /\ agree k g1' g2'
  | Raise e1, Raise e2 => e1 = e2
  | _, _ => False
  end.

(** [reads n m]: what [m] does is decided by the next [n] draws, of which
    it takes no more than [n]. *)
Definition reads {A} (n : nat) (m : M A) : Prop :=
  forall k g1 g2, agree (n + k) g1 g2 -> same_outcome k (m g1) (m g2).

(** ** C5: the power multiplier *)

(** The specification's table of size keywords, in its order. *)
Definition size_table : list (string * Float.float) :=
  [ ("tiny", Float.lit 3 10); ("small", Float.lit 5 10); ("young", Float.lit 6 10);
    ("medium", Float.lit 7 10); ("large", Float.lit 12 10); ("huge", Float.lit 15 10);
    ("massive", Float.lit 18 10); ("giant", Float.lit 20 10); ("ancient", Float.lit 16 10);
    ("elder", Float.lit 14 10); ("baby", Float.lit 4 10); ("mighty", Float.lit 13 10) ].

(** The specification's rule: the multiplier of the first entry of the
    table whose keyword occurs in the lower-cased prompt, 1.0 without. *)
Definition power_multiplier_spec (prompt : string) : Float.float :=
  match List.find (fun kv => Str.contains (fst kv) (Str.lower prompt)) size_table with
  | Some kv => snd kv
  | None => Float.lit 10 10
  end.

(** The keywords that come before [massive] in the table. *)
Definition before_massive : list string :=
  ["tiny"; "small"; "young"; "medium"; "large"; "huge"].

(** ** C6: the defaults *)

(** No keyword of any entry of a keyword table occurs in the prompt. *)
Definition no_keyword (table : Dict.dict (list string)) (prompt_lower : string) : bool :=
  forallb (fun kv => negb (any_in (snd kv) prompt_lower)) table.

(** The cue words of the four combat styles. *)
Definition style_words : list string :=
  (slashing_words ++ fire_words ++ magic_words ++ biting_words)%list.

(** The archetypes, elements and combat styles the classifiers know. *)
Definition ARCHETYPES : list string :=
  ["dragon"; "wolf"; "bird"; "beast"; "elemental"; "demon"; "angel"; "undead"].
Definition STYLES : list string := ["slashing"; "fire"; "magic"; "biting"; "physical"].

(** ** C7: the fallback of the secondary attack *)

(** A prompt with two detected styles, the second of which its element
    has no templates for; and the generator whose draws are all 0. *)
Definition rock_prompt : string := "rock claws fangs".
Definition zeros : Rng := fun _ => 0.

(** ** C8: the damage of the attacks *)

(** The specification's table of rarity multipliers. *)
Definition rarity_multipliers : list (string * Float.float) :=
  [ ("Common", Float.lit 9 10); ("Uncommon", Float.lit 10 10); ("Rare", Float.lit 11 10);
    ("Epic", Float.lit 12 10); ("Legendary", Float.lit 13 10) ].

(** ** C9: the descriptors *)

(** The same words in two orders: the descriptors differ, the rest of
    the classification does not. *)
Definition fierce_tiger : string := "fierce tiger".
Definition tiger_fierce : string := "tiger fierce".

(** ** C10: the flavor text of the unmapped archetypes *)

(** The sentences of the [beast] entry. *)
Definition beast_sentences : list string :=
  [ "A fierce predator that rules its territory with strength.";
    "Its roar can be heard for miles, warning others to stay away.";
    "Perfectly adapted to survive in the harshest conditions." ].

(** * The caller of the engine: the endpoint [/generate] *)

(** ** More of Python *)

(** [str.lstrip()], [str.rstrip()] and [str.strip()] without argument:
    the white space of [Str.isspace] is removed at the ends. *)
Fixpoint lstrip (s : string) : string :=
  match s with
  | EmptyString => EmptyString
  | String c s' => if Str.isspace c then lstrip s' else s
  end.

Fixpoint rstrip (s : string) : string :=
  match s with
  | EmptyString => EmptyString
  | String c s' =>
      let r := rstrip s' in
      if Str.isspace c && Str.is_empty r then EmptyString else String c r
  end.

Definition strip (s : string) : string := rstrip (lstrip s).

Definition float_sub : Float.float -> Float.float -> Float.float :=
  SFsub Float.prec Float.emax.

(** [random.uniform(a, b)], which is [a + (b - a) * random()]. *)
Definition random_uniform (a b : Float.float) : M Float.float :=
  u <- Random.random ;; ret (Float.add a (Float.mul (float_sub b a) u)).

(** ** simulate_processing_time *)

(** The time to wait is drawn; the wait itself, [asyncio.sleep], delays
    the caller and nothing else. *)
Definition simulate_processing_time (min_time max_time : Float.float) : M unit :=
  wait_time <- random_uniform min_time max_time ;; ret tt.

(** ** generate_image *)

Definition FALLBACK_IMAGES : list string :=
  [ "https://images.unsplash.com/photo-1578662996442-48f60103fc96?w=400&h=500&fit=crop&crop=center";
    "https://images.unsplash.com/photo-1520637836862-4d197d17c73a?w=400&h=500&fit=crop&crop=center";
    "https://images.unsplash.com/photo-1551582045-6ec9c671a834?w=400&h=500&fit=crop&crop=center" ].

Module GenerateImageResponse.
Record t : Set := mk {
  image_url : string;
  metadata : option CardMetadata.t;
  generation_time : Float.float
}.
End GenerateImageResponse.

(** What an endpoint answers: its response, or the [HTTPException] it
    raises, which the framework turns into an error response. *)
Inductive http (A : Type) : Type :=
| Response (a : A)
| HTTPException (status_code : Z) (detail : string).
Arguments Response {A} a.
Arguments HTTPException {A} status_code detail.

(** The endpoint.  What it takes from outside the program is given to it:
    [placeholder_images] is what [get_placeholder_images()] finds in the
    upload directory, [clock_start] and [clock_end] are the two readings
    of [time.time()].  The two calls of [logger] write to the log and
    nothing else. *)
Definition generate_image (placeholder_images : list string)
    (clock_start clock_end : Float.float) (prompt : string)
    : M (http GenerateImageResponse.t) :=
  if Str.is_empty (strip prompt) then ret (HTTPException 400 "Prompt cannot be empty")
  else
    let generation_start := clock_start in
    let available_images := placeholder_images in
    let available_images :=
      if negb (truthy available_images) then FALLBACK_IMAGES else available_images in
    _ <- simulate_processing_time (Float.lit 20 10) (Float.lit 40 10) ;;
    image_url <- Random.choice available_images ;;
    metadata <- analyze_image_and_generate_stats image_url prompt ;;
    let generation_time := float_sub clock_end generation_start in
    ret (Response (GenerateImageResponse.mk image_url (Some metadata) generation_time)).

(** * More definitions for the statements *)

(** The scaled damages of a template are in the ranges 22..65, for a
    primary attack, and 18..52, for an offensive secondary attack, under
    every multiplier of the rarity table; and the template is not called
    [Basic Strike]. *)
Definition in_range_Z (lo hi : Z) (o : exn + Z) : bool :=
  match o with inr z => (lo <=? z) && (z <=? hi) | inl _ => false end.

Definition template_in_range (t : Template) : bool :=
  let '(n, base_damage, _) := t in
  negb (String.eqb n "Basic Strike") &&
  forallb
    (fun dm =>
       in_range_Z 22 65 (int_of_float (Float.mul (Float.of_int base_damage) dm)) &&
       in_range_Z 18 52
         (int_of_float
            (Float.mul (Float.mul (Float.of_int base_damage) dm) (Float.lit 8 10))))
    (map snd damage_multipliers).

(** A list of one template that is in range. *)
Definition single_in_range (l : list Template) : bool :=
  match l with
  | [t] => template_in_range t
  | _ => false
  end.

(** The three utility attacks of a card of the given hp. *)
Definition utility_actions (hp : Z) : list Attack.t :=
  [ Attack.mk "Regenerate" 0 ("Restores " ++ Str.of_int (hp / 5) ++ " HP");
    Attack.mk "Fortify" 0 "Reduces next attack by 50%";
    Attack.mk "Power Up" 0 "Next attack deals double damage" ].

(** The sixth draw at its largest: a utility action. *)
Definition utility_draws : Rng := fun i => if (i =? 5)%nat then 2 ^ 53 - 1 else 0.

(** The cue words of the combat styles, in the order the extractor tests
    them. *)
Definition style_cues : list (string * list string) :=
  [ ("slashing", slashing_words); ("fire", fire_words);
    ("magic", magic_words); ("biting", biting_words) ].

(** The styles whose cue words occur in the prompt, in that order. *)
Definition detected_styles (prompt_lower : string) : list string :=
  map fst (filter (fun kv => any_in (snd kv) prompt_lower) style_cues).

(** The complexity scores of a prompt of at most five words. *)
Definition short_complexities : list Z := map Z.of_nat (seq 0 8).

(** The keywords of the element Fire. *)
Definition fire_keywords : list string :=
  ["fire"; "flame"; "lava"; "magma"; "ember"; "phoenix"; "dragon"].

(** ** generate_card_metadata *)

(** The legacy entry point: a power level drawn in [0.7, 1.3], the
    element Fire, the number of words as the complexity. *)
Definition generate_card_metadata (prompt : string) : M CardMetadata.t :=
  power <- random_uniform (Float.lit 7 10) (Float.lit 13 10) ;;
  let fake_analysis :=
    {| apparent_power_level := power;
       detected_element := "Fire";
       complexity_score := Z.of_nat (List.length (Str.split prompt));
       creature_characteristics := extract_creature_characteristics prompt;
       original_prompt := prompt |} in
  generate_stats_from_analysis fake_analysis.

(** ** Finite floats *)

(** A zero, or a finite float with a mantissa of at most 53 bits and an
    exponent of at most [E]: its magnitude is below [2 ^ (E + 53)]. *)
Definition fin (E : Z) (x : Float.float) : Prop :=
  match x with
  | S754_zero _ => True
  | S754_finite _ m e => Zpos (digits2_pos m) <= 53 /\ e <= E
  | _ => False
  end.

Definition finb (E : Z) (x : Float.float) : bool :=
  match x with
  | S754_zero _ => true
  | S754_finite _ m e => (Zpos (digits2_pos m) <=? 53) && (e <=? E)
  | _ => false
  end.


(** * Reasoning principles *)

(** ** The generator: what is left after [n] draws *)

Section WpRules.

Context {A B : Type}.

Lemma wp_ret (a : A) (Q : A -> Rng -> Prop) g : Q a g -> wp (ret a) Q g.
Proof. exact (fun H => H). Qed.

Lemma wp_bind (m : M A) (f : A -> M B) (Q : B -> Rng -> Prop) g :
  wp m (fun a g' => wp (f a) Q g') g -> wp (bind m f) Q g.
Proof.
  unfold wp, bind. destruct (m g) as [[a g'] | e]; trivial.
Qed.

Lemma wp_conseq (m : M A) (P Q : A -> Rng -> Prop) g :
  wp m P g -> (forall a g', P a g' -> Q a g') -> wp m Q g.
Proof.
  unfold wp. destruct (m g) as [[a g'] | e]; auto.
Qed.

Lemma wp_lift (o : exn + A) (a : A) (Q : A -> Rng -> Prop) g :
  o = inr a -> Q a g -> wp (lift o) Q g.
Proof. intros -> H. exact H. Qed.

Lemma wp_run (m : M A) (Q : A -> Rng -> Prop) g :
  wp m Q g -> exists a g', m g = Ok (a, g') /\ Q a g'.
Proof.
  unfold wp. destruct (m g) as [[a g'] | e]; [eauto | contradiction].
Qed.

End WpRules.

Lemma wp_random (Q : Float.float -> Rng -> Prop) g :
  Q (Float.of_bits53 (g O mod 2 ^ 53)) (drop 1 g) -> wp Random.random Q g.
Proof. exact (fun H => H). Qed.

Lemma wp_randint (a b : Z) (Q : Z -> Rng -> Prop) g :
  Q (a + g O mod (b - a + 1)) (drop 1 g) -> wp (Random.randint a b) Q g.
Proof. exact (fun H => H). Qed.

Lemma randint_range (a b d : Z) : a <= b -> a <= a + d mod (b - a + 1) <= b.
Proof.
  intros Hab. pose proof (Z.mod_pos_bound d (b - a + 1)). lia.
Qed.

(** [random.choice] of a non-empty sequence returns the element at the
    index the draw selects. *)
Lemma wp_choice {A} (seq : list A) (Q : A -> Rng -> Prop) g :
  seq <> [] ->
  (forall a,
     nth_error seq (Z.to_nat (g O mod Z.of_nat (List.length seq))) = Some a ->
     In a seq -> Q a (drop 1 g)) ->
  wp (Random.choice seq) Q g.
Proof.
  intros Hne HQ. destruct seq as [| x seq']; [congruence |].
  pose proof (Z.mod_pos_bound (g O) (Z.of_nat (List.length (x :: seq')))) as Hb.
  assert (Hpos : 0 < Z.of_nat (List.length (x :: seq'))) by (simpl List.length; lia).
  specialize (Hb Hpos).
  unfold wp, Random.choice, bind, Random.randbelow, bind, Random.next, ret.
  match goal with
  | |- context [nth_error ?l ?i] => destruct (nth_error l i) as [a |] eqn:Hnth
  end.
  - apply HQ; [reflexivity | eapply nth_error_In; exact Hnth].
  - apply nth_error_None in Hnth. lia.
Qed.

(** ** Dictionaries *)

Lemma find_In {V} (d : Dict.dict V) k v : Dict.find d k = Some v -> In (k, v) d.
Proof.
  induction d as [| [k' v'] d IH]; simpl; [discriminate |].
  destruct (String.eqb k k') eqn:E.
  - apply String.eqb_eq in E. intros [= ->]. subst. now left.
  - intros H. right. auto.
Qed.

(** What [get] returns is the default or a value of the dictionary. *)
Lemma get_ind {V} (P : V -> Prop) (d : Dict.dict V) k default :
  P default -> (forall k' v, In (k', v) d -> P v) -> P (Dict.get d k default).
Proof.
  intros Hd Hv. unfold Dict.get. destruct (Dict.find d k) eqn:E; trivial.
  eapply Hv, find_In, E.
Qed.

(** ** First-match loops *)

Lemma detect_power_first items prompt_lower default :
  detect_power items prompt_lower default =
  match List.find (fun kv => Str.contains (fst kv) prompt_lower) items with
  | Some kv => snd kv
  | None => default
  end.
Proof.
  induction items as [| [k v] items IH]; simpl; [reflexivity |].
  destruct (Str.contains k prompt_lower); [reflexivity | exact IH].
Qed.

Lemma detect_type_none items prompt_lower default :
  forallb (fun kv => negb (any_in (snd kv) prompt_lower)) items = true ->
  detect_type items prompt_lower default = default.
Proof.
  induction items as [| [k v] items IH]; simpl; [reflexivity |].
  intros H. apply andb_true_iff in H as [H1 H2].
  apply negb_true_iff in H1. rewrite H1. auto.
Qed.

Lemma detect_element_none items prompt_lower default :
  forallb (fun kv => negb (any_in (snd kv) prompt_lower)) items = true ->
  detect_element items prompt_lower default = default.
Proof.
  induction items as [| [k v] items IH]; simpl; [reflexivity |].
  intros H. apply andb_true_iff in H as [H1 H2].
  apply negb_true_iff in H1. rewrite H1. auto.
Qed.

Lemma detect_type_range items prompt_lower default :
  In (detect_type items prompt_lower default) (default :: Dict.keys items).
Proof.
  induction items as [| [k v] items IH]; simpl; [auto |].
  destruct (any_in v prompt_lower); [auto |].
  destruct IH as [IH | IH]; [left; exact IH | right; right; exact IH].
Qed.

Lemma detect_element_range items prompt_lower default :
  In (detect_element items prompt_lower default)
     (default :: map Str.title (Dict.keys items)).
Proof.
  induction items as [| [k v] items IH]; simpl; [auto |].
  destruct (any_in v prompt_lower); [auto |].
  destruct IH as [IH | IH]; [left; exact IH | right; right; exact IH].
Qed.

Lemma detect_power_range items prompt_lower default :
  In (detect_power items prompt_lower default) (default :: map snd items).
Proof.
  induction items as [| [k v] items IH]; simpl; [auto |].
  destruct (Str.contains k prompt_lower); [auto |].
  destruct IH as [IH | IH]; [left; exact IH | right; right; exact IH].
Qed.

(** ** The constant tables *)

Lemma is_int_elim o : is_int o = true -> exists z, o = inr z /\ 0 <= z.
Proof.
  destruct o as [e | z]; simpl; [discriminate |].
  intros H. exists z. split; [reflexivity | lia].
Qed.

Lemma attack_templates_ok :
  forallb (fun ea => forallb (fun kv => templates_ok (snd kv)) (snd ea)) attack_templates = true.
Proof. vm_compute. reflexivity. Qed.

Lemma generic_strike_ok : templates_ok generic_strike = true.
Proof. vm_compute. reflexivity. Qed.

Lemma templates_ok_elim l :
  templates_ok l = true ->
  l <> [] /\
  forall n b d dm,
    In (n, b, d) l -> In dm (map snd damage_multipliers) ->
    (exists s, int_of_float (Float.mul (Float.of_int b) dm) = inr s /\ 0 <= s) /\
    (exists s, int_of_float (Float.mul (Float.mul (Float.of_int b) dm) (Float.lit 8 10)) = inr s
               /\ 0 <= s).
Proof.
  unfold templates_ok. intros H. apply andb_true_iff in H as [Hne Hall]. split.
  - destruct l; [discriminate | congruence].
  - intros n b d dm Hin Hdm.
    rewrite forallb_forall in Hall. specialize (Hall _ Hin). unfold template_ok in Hall.
    rewrite forallb_forall in Hall. specialize (Hall _ Hdm).
    apply andb_true_iff in Hall as [H1 H2].
    split; apply is_int_elim; assumption.
Qed.

Lemma fire_item : Dict.item attack_templates "Fire" = inr fire_attacks.
Proof. reflexivity. Qed.

Lemma element_attacks_ok element k l :
  In (k, l) (element_attacks_of element) -> templates_ok l = true.
Proof.
  unfold element_attacks_of.
  pattern (Dict.get attack_templates element fire_attacks).
  apply get_ind.
  - intros Hin. pose proof attack_templates_ok as H.
    rewrite forallb_forall in H.
    assert (Hf : In ("Fire", fire_attacks) attack_templates) by (left; reflexivity).
    specialize (H _ Hf). rewrite forallb_forall in H. exact (H _ Hin).
  - intros k' ea Hea Hin. pose proof attack_templates_ok as H.
    rewrite forallb_forall in H.
    specialize (H _ Hea). rewrite forallb_forall in H. exact (H _ Hin).
Qed.

Lemma primary_templates_ok element primary_style :
  templates_ok (primary_templates (element_attacks_of element) primary_style) = true.
Proof.
  unfold primary_templates. apply get_ind.
  - apply get_ind; [exact generic_strike_ok | intros k v; apply element_attacks_ok].
  - intros k v; apply element_attacks_ok.
Qed.

Lemma secondary_templates_ok element secondary_style style_attacks :
  templates_ok style_attacks = true ->
  templates_ok (secondary_templates (element_attacks_of element) secondary_style style_attacks)
  = true.
Proof.
  intros H. unfold secondary_templates. apply get_ind; [exact H |].
  intros k v; apply element_attacks_ok.
Qed.

Lemma rarity_of_score_range x : In (rarity_of_score x) RARITIES.
Proof.
  unfold rarity_of_score, RARITIES.
  repeat match goal with
         | |- context [if ?c then _ else _] => destruct c
         end; simpl; auto 10.
Qed.

Lemma rarity_has_multiplier rarity :
  In rarity RARITIES ->
  exists dm, Dict.find damage_multipliers rarity = Some dm /\
             In dm (map snd damage_multipliers).
Proof.
  intros H. simpl in H.
  repeat (destruct H as [<- | H]; [eexists; split; [reflexivity | simpl; auto 10] |]).
  contradiction.
Qed.

(** ** generate_contextual_attacks, step by step *)

Lemma truthy_nonempty {A} (l : list A) : l <> [] -> truthy l = true.
Proof. destruct l; [congruence | reflexivity]. Qed.

Lemma secondary_styles_head (cs : list string) :
  (if 1 <? Z.of_nat (List.length cs) then tl cs else ["magic"]) =
  secondary_style_of cs :: match cs with _ :: _ :: r => r | _ => [] end.
Proof.
  destruct cs as [| s [| s' r]]; try reflexivity.
  assert (E : (1 <? Z.of_nat (List.length (s :: s' :: r))) = true).
  { apply Z.ltb_lt. simpl List.length. lia. }
  rewrite E. reflexivity.
Qed.

Lemma utility_item hp utility_type :
  In utility_type (Dict.keys (utility_attacks hp)) ->
  exists t, Dict.item (utility_attacks hp) utility_type = inr t /\
            In (attack_of_template t)
               (map (fun kv => attack_of_template (snd kv)) (utility_attacks hp)).
Proof.
  intros H. simpl in H.
  repeat (destruct H as [<- | H];
          [eexists; split; [reflexivity | simpl; auto] |]).
  contradiction.
Qed.

Lemma generate_contextual_attacks_spec chars element hp rarity dm g :
  Dict.find damage_multipliers rarity = Some dm ->
  wp (generate_contextual_attacks chars element hp rarity)
     (fun attacks g' => g' = drop 3 g /\ attacks_post chars element hp dm g attacks) g.
Proof.
  intros Hdm.
  assert (Hdm_in : In dm (map snd damage_multipliers)).
  { apply find_In in Hdm. apply (in_map snd) in Hdm. exact Hdm. }
  unfold generate_contextual_attacks.
  apply wp_bind. eapply wp_lift; [exact fire_item |].
  fold (element_attacks_of element).
  fold (primary_style_of (combat_styles chars)).
  set (style_attacks :=
         primary_templates (element_attacks_of element) (primary_style_of (combat_styles chars))).
  pose proof (primary_templates_ok element (primary_style_of (combat_styles chars))) as Hok.
  fold style_attacks in Hok.
  destruct (templates_ok_elim _ Hok) as [Hne Hscale].
  assert (Htruthy : truthy style_attacks = true) by (apply truthy_nonempty, Hne).
  rewrite Htruthy.
  apply wp_bind. apply wp_bind. apply wp_choice; [exact Hne |].
  intros [[n1 b1] d1] _ Hin1.
  destruct (Hscale _ _ _ _ Hin1 Hdm_in) as [[s1 [Hs1 _]] _].
  apply wp_bind. eapply wp_lift; [unfold Dict.item; rewrite Hdm; reflexivity |].
  apply wp_bind. eapply wp_lift; [exact Hs1 |].
  apply wp_ret.
  apply wp_bind. apply wp_random.
  apply wp_bind.
  rewrite secondary_styles_head.
  set (secondary_attacks :=
         secondary_templates (element_attacks_of element)
           (secondary_style_of (combat_styles chars)) style_attacks).
  pose proof (secondary_templates_ok element (secondary_style_of (combat_styles chars)) _ Hok)
    as Hok2.
  fold secondary_attacks in Hok2.
  destruct (templates_ok_elim _ Hok2) as [Hne2 Hscale2].
  assert (Htruthy2 : truthy secondary_attacks = true) by (apply truthy_nonempty, Hne2).
  assert (Hpost1 :
    exists n b d s,
      In (n, b, d) style_attacks /\
      int_of_float (Float.mul (Float.of_int b) dm) = inr s /\
      Attack.mk n1 (Z.max 15 s1) d1 = Attack.mk n (Z.max 15 s) d).
  { exists n1, b1, d1, s1. auto. }
  unfold attacks_post. fold style_attacks. fold secondary_attacks.
  change (offensive (drop 1 (drop 1 g))) with (offensive (drop 1 g)).
  change (Float.ltb (Float.of_bits53 (drop 1 g O mod 2 ^ 53)) (Float.lit 7 10))
    with (offensive (drop 1 g)).
  destruct (offensive (drop 1 g)).
  - rewrite Htruthy2.
    apply wp_bind. apply wp_choice; [exact Hne2 |].
    intros [[n2 b2] d2] _ Hin2.
    destruct (Hscale2 _ _ _ _ Hin2 Hdm_in) as [_ [s2 [Hs2 _]]].
    apply wp_bind. apply wp_ret.
    apply wp_bind. eapply wp_lift; [exact Hs2 |].
    apply wp_ret. apply wp_ret.
    split; [reflexivity |].
    eexists _, _. split; [reflexivity |]. split; [exact Hpost1 |].
    exists n2, b2, d2, s2. auto.
  - apply wp_bind. apply wp_choice; [discriminate |].
    intros utility_type _ Hin.
    destruct (utility_item hp utility_type Hin) as [[[n2 dmg2] d2] [Hitem Hin2]].
    apply wp_bind. eapply wp_lift; [exact Hitem |].
    apply wp_ret. apply wp_ret.
    split; [reflexivity |].
    eexists _, _. split; [reflexivity |]. split; [exact Hpost1 |].
    exact Hin2.
Qed.

(** ** generate_creature_name and generate_flavor_text *)

Lemma get_nonempty {A} (d : Dict.dict (list A)) k default :
  truthy default = true ->
  forallb (fun kv => truthy (snd kv)) d = true ->
  Dict.get d k default <> [].
Proof.
  intros Hd Hall. apply get_ind.
  - destruct default; [discriminate | congruence].
  - intros k' v Hin. rewrite forallb_forall in Hall. specialize (Hall _ Hin).
    destruct v; [discriminate | congruence].
Qed.

Lemma generate_creature_name_spec chars element g :
  wp (generate_creature_name chars element)
     (fun name g' => g' = drop 2 g /\ name_post chars element name) g.
Proof.
  unfold generate_creature_name.
  apply wp_bind. apply wp_choice; [apply get_nonempty; reflexivity |].
  intros prefix _ Hp.
  apply wp_bind. apply wp_choice; [apply get_nonempty; reflexivity |].
  intros suffix _ Hs.
  apply wp_ret. split; [reflexivity |]. exists prefix, suffix. auto.
Qed.

Lemma generate_flavor_text_spec chars original_prompt g :
  wp (generate_flavor_text chars original_prompt)
     (fun text g' => g' = drop 1 g /\ flavor_post chars g text) g.
Proof.
  unfold generate_flavor_text.
  apply wp_bind. eapply wp_lift; [reflexivity |].
  apply wp_choice; [apply get_nonempty; reflexivity |].
  intros text Hnth Hin. split; [reflexivity |]. split; assumption.
Qed.

(** ** generate_stats_from_analysis *)

Lemma base_hp_of_range g :
  (if low_range g then 40 <= base_hp_of g <= 100 else 100 <= base_hp_of g <= 150).
Proof.
  unfold base_hp_of. destruct (low_range g); apply randint_range; lia.
Qed.

Lemma generate_stats_from_analysis_spec analysis s dm g :
  int_of_float (Float.mul (Float.of_int (base_hp_of g)) (apparent_power_level analysis)) = inr s ->
  Dict.find damage_multipliers (rarity_of_analysis analysis) = Some dm ->
  wp (generate_stats_from_analysis analysis)
     (fun card g' => g' = drop 8 g /\ stats_post analysis s dm g card) g.
Proof.
  intros Hs Hdm. unfold generate_stats_from_analysis.
  apply wp_bind. apply wp_random.
  apply wp_bind.
  apply wp_conseq with (P := fun base_hp g' => g' = drop 2 g /\ base_hp = base_hp_of g).
  { unfold base_hp_of, low_range.
    destruct (Float.ltb (Float.of_bits53 (g O mod 2 ^ 53)) (Float.lit 8 10));
      apply wp_randint; split; reflexivity. }
  intros base_hp g2 [-> ->].
  apply wp_bind. eapply wp_lift; [exact Hs |].
  apply wp_bind.
  eapply wp_conseq; [apply generate_creature_name_spec |].
  intros name g4 [-> Hname].
  apply wp_bind.
  eapply wp_conseq; [apply generate_contextual_attacks_spec; exact Hdm |].
  intros attacks g7 [-> Hattacks].
  apply wp_bind.
  eapply wp_conseq; [apply generate_flavor_text_spec |].
  intros text g8 [-> Hflavor].
  apply wp_ret. split; [reflexivity |].
  unfold stats_post. simpl. auto 10.
Qed.

(** ** The whole pipeline *)

Lemma hp_scaling_ok :
  forallb
    (fun p => forallb (fun b => is_int (int_of_float (Float.mul (Float.of_int b) p))) hp_bases)
    power_values = true.
Proof. vm_compute. reflexivity. Qed.

Lemma in_hp_bases z : 40 <= z <= 150 -> In z hp_bases.
Proof.
  intros Hz. unfold hp_bases.
  replace z with (Z.of_nat (Z.to_nat z)) by lia.
  apply in_map, in_seq. lia.
Qed.

Lemma base_hp_in_bases g : In (base_hp_of g) hp_bases.
Proof.
  apply in_hp_bases. pose proof (base_hp_of_range g) as H.
  destruct (low_range g); lia.
Qed.

Lemma power_multiplier_range image_url prompt :
  In (apparent_power_level (simulate_vision_analysis image_url prompt)) power_values.
Proof. apply detect_power_range. Qed.

Lemma synthesis_spec image_url prompt g :
  let analysis := simulate_vision_analysis image_url prompt in
  exists s dm,
    int_of_float (Float.mul (Float.of_int (base_hp_of g)) (apparent_power_level analysis))
    = inr s /\
    Dict.find damage_multipliers (rarity_of_analysis analysis) = Some dm /\
    wp (analyze_image_and_generate_stats image_url prompt)
       (fun card g' => g' = drop 8 g /\ stats_post analysis s dm g card) g.
Proof.
  intros analysis.
  pose proof hp_scaling_ok as Hhp. rewrite forallb_forall in Hhp.
  specialize (Hhp _ (power_multiplier_range image_url prompt)).
  rewrite forallb_forall in Hhp. specialize (Hhp _ (base_hp_in_bases g)).
  apply is_int_elim in Hhp as [s [Hs _]].
  destruct (rarity_has_multiplier _ (rarity_of_score_range
              (rarity_score_of (complexity_score analysis) (apparent_power_level analysis))))
    as [dm [Hdm _]].
  exists s, dm. split; [exact Hs |]. split; [exact Hdm |].
  unfold analyze_image_and_generate_stats.
  apply generate_stats_from_analysis_spec; assumption.
Qed.

(** The card a run returns, with what [stats_post] says of it. *)
Lemma synthesis_returns image_url prompt g :
  let analysis := simulate_vision_analysis image_url prompt in
  exists card s dm,
    result (analyze_image_and_generate_stats image_url prompt g) = Ok card /\
    int_of_float (Float.mul (Float.of_int (base_hp_of g)) (apparent_power_level analysis))
    = inr s /\
    Dict.find damage_multipliers (rarity_of_analysis analysis) = Some dm /\
    stats_post analysis s dm g card.
Proof.
  intros analysis.
  destruct (synthesis_spec image_url prompt g) as [s [dm [Hs [Hdm Hwp]]]].
  apply wp_run in Hwp as [card [g' [Hrun [_ Hpost]]]].
  exists card, s, dm. rewrite Hrun. auto.
Qed.

(** ** The draws of [random.random] *)

(** The binary digits of a positive number. *)
Lemma digits2_pos_bounds p :
  2 ^ (Zpos (digits2_pos p) - 1) <= Zpos p < 2 ^ Zpos (digits2_pos p).
Proof.
  induction p as [p IH | p IH |]; cbn [digits2_pos].
  - rewrite Pos2Z.inj_succ.
    replace (Z.succ (Zpos (digits2_pos p)) - 1) with (Z.succ (Zpos (digits2_pos p) - 1)) by lia.
    rewrite !Z.pow_succ_r by lia. lia.
  - rewrite Pos2Z.inj_succ.
    replace (Z.succ (Zpos (digits2_pos p)) - 1) with (Z.succ (Zpos (digits2_pos p) - 1)) by lia.
    rewrite !Z.pow_succ_r by lia. lia.
  - simpl. lia.
Qed.

Lemma digits2_pos_iter_xO q p :
  digits2_pos (Pos.iter xO p q) = (digits2_pos p + q)%positive.
Proof.
  induction q as [| q IH] using Pos.peano_ind.
  - simpl. lia.
  - rewrite Pos.iter_succ. cbn [digits2_pos]. rewrite IH. lia.
Qed.

Lemma iter_xO_value q p : Zpos (Pos.iter xO p q) = Zpos p * 2 ^ Zpos q.
Proof.
  induction q as [| q IH] using Pos.peano_ind.
  - simpl. lia.
  - rewrite Pos.iter_succ, Pos2Z.inj_succ, Z.pow_succ_r by lia.
    rewrite Pos2Z.inj_xO, IH. lia.
Qed.

(** A mantissa of 53 digits with an exponent in range is not rounded. *)
Lemma binary_round_aux_exact s m e :
  Zpos (digits2_pos m) = 53 -> -1074 <= e <= 971 ->
  binary_round_aux Float.prec Float.emax s (Zpos m) e loc_Exact = S754_finite s m e.
Proof.
  intros Hd He.
  unfold binary_round_aux, shr_fexp, fexp, emin, Float.prec, Float.emax.
  cbn [Zdigits2 shr_record_of_loc]. rewrite Hd.
  replace (Z.max (53 + e - 53) (3 - 1024 - 53) - e) with 0 by lia.
  cbn [shr shr_m loc_of_shr_record round_nearest_even Zdigits2 shr_record_of_loc].
  rewrite Hd.
  replace (Z.max (53 + e - 53) (3 - 1024 - 53) - e) with 0 by lia.
  cbn [shr shr_m].
  replace (e <=? 1024 - 53) with true by (symmetry; apply Z.leb_le; lia).
  reflexivity.
Qed.

Lemma of_bits53_pos p :
  Zpos p < 2 ^ 53 ->
  exists m,
    Float.of_bits53 (Zpos p) = S754_finite false m (Zpos (digits2_pos p) - 106) /\
    Zpos m = Zpos p * 2 ^ (53 - Zpos (digits2_pos p)).
Proof.
  intros Hp. pose proof (digits2_pos_bounds p) as [Hlo Hhi].
  assert (Hd : Zpos (digits2_pos p) <= 53).
  { destruct (Z.le_gt_cases (Zpos (digits2_pos p)) 53) as [H | H]; [exact H |].
    assert (2 ^ 53 <= 2 ^ (Zpos (digits2_pos p) - 1)) by (apply Z.pow_le_mono_r; lia).
    lia. }
  unfold Float.of_bits53, binary_normalize, binary_round, shl_align, fexp, emin,
    Float.prec, Float.emax.
  replace (Z.max (Zpos (digits2_pos p) + -53 - 53) (3 - 1024 - 53) - -53)
    with (Zpos (digits2_pos p) - 53) by lia.
  replace (Z.max (Zpos (digits2_pos p) + -53 - 53) (3 - 1024 - 53))
    with (Zpos (digits2_pos p) - 106) by lia.
  destruct (Zpos (digits2_pos p) - 53) as [| q | q] eqn:E; [| lia |].
  - exists p. split.
    + replace (Zpos (digits2_pos p) - 106) with (-53) by lia.
      apply (binary_round_aux_exact false p); lia.
    + replace (53 - Zpos (digits2_pos p)) with 0 by lia. lia.
  - exists (Pos.iter xO p q). split.
    + apply (binary_round_aux_exact false); [| lia].
      rewrite digits2_pos_iter_xO. lia.
    + rewrite iter_xO_value. f_equal. f_equal. lia.
Qed.

(** The draw [k / 2^53] is below a float [mt / 2^53] of full precision
    exactly when [k] is below [mt]. *)
Lemma of_bits53_ltb k mt :
  0 <= k < 2 ^ 53 -> 2 ^ 52 <= Zpos mt ->
  Float.ltb (Float.of_bits53 k) (S754_finite false mt (-53)) = (k <? Zpos mt).
Proof.
  intros Hk Hmt. destruct k as [| p | p]; [| | lia].
  - reflexivity.
  - destruct (of_bits53_pos p) as [m [-> Hm]]; [lia |].
    pose proof (digits2_pos_bounds p) as [Hlo Hhi].
    unfold Float.ltb, SFltb, SFcompare.
    destruct (Z.compare_spec (Zpos (digits2_pos p) - 106) (-53)) as [E | E | E].
    + replace (53 - Zpos (digits2_pos p)) with 0 in Hm by lia.
      assert (m = p) by lia. subst m.
      change (Pos.compare_cont Eq p mt) with (Pos.compare p mt).
      change (Zpos p <? Zpos mt) with
        (match Pos.compare p mt with Lt => true | _ => false end).
      reflexivity.
    + symmetry. apply Z.ltb_lt.
      assert (2 ^ Zpos (digits2_pos p) <= 2 ^ 52) by (apply Z.pow_le_mono_r; lia).
      lia.
    + assert (2 ^ 53 <= 2 ^ (Zpos (digits2_pos p) - 1)) by (apply Z.pow_le_mono_r; lia).
      lia.
Qed.

(** [0.8] is [7205759403792794 / 2^53] and [0.7] is
    [6305039478318694 / 2^53]: of the [2^53] values of the 53 random bits,
    that many fall below. *)
Lemma low_range_threshold g : low_range g = (g O mod 2 ^ 53 <? 7205759403792794).
Proof.
  unfold low_range.
  change (Float.lit 8 10) with (S754_finite false 7205759403792794 (-53)).
  apply of_bits53_ltb; [apply Z.mod_pos_bound; lia | lia].
Qed.

Lemma offensive_threshold g : offensive g = (g O mod 2 ^ 53 <? 6305039478318694).
Proof.
  unfold offensive.
  change (Float.lit 7 10) with (S754_finite false 6305039478318694 (-53)).
  apply of_bits53_ltb; [apply Z.mod_pos_bound; lia | lia].
Qed.

(** * The properties of the specification *)

(** ** C1: hit points *)

(** C1. For every prompt and every sequence of draws the engine returns a
    card whose [hp] is an integer between 20 and 150: it is the product of
    [base_hp] and [power_multiplier], truncated by [int] and clamped to
    [20, 150], where [base_hp] is [randint(40, 100)] when the first draw
    [random.random()] is below 0.8, which 7205759403792794 of the [2^53]
    values of the draw are, and [randint(100, 150)] otherwise. *)
Theorem hp_clamped_truncation image_url prompt g :
  exists card s,
    result (analyze_image_and_generate_stats image_url prompt g) = Ok card /\
    20 <= CardMetadata.hp card <= 150 /\
    low_range g = (g O mod 2 ^ 53 <? 7205759403792794) /\
    base_hp_of g = (if low_range g then 40 + g 1%nat mod 61 else 100 + g 1%nat mod 51) /\
    (if low_range g then 40 <= base_hp_of g <= 100 else 100 <= base_hp_of g <= 150) /\
    int_of_float
      (Float.mul (Float.of_int (base_hp_of g))
         (apparent_power_level (simulate_vision_analysis image_url prompt))) = inr s /\
    CardMetadata.hp card = Z.max 20 (Z.min 150 s).
Proof.
  destruct (synthesis_returns image_url prompt g) as [card [s [dm [Hrun [Hs [_ Hpost]]]]]].
  destruct Hpost as [Hhp _].
  exists card, s. split; [exact Hrun |].
  split; [rewrite Hhp; lia |].
  split; [apply low_range_threshold |].
  split; [reflexivity |].
  split; [apply base_hp_of_range |].
  split; assumption.
Qed.

(** Every value of the two ranges is the base HP of some draws. *)
Remark base_hp_onto v :
  (40 <= v <= 100 -> base_hp_of (fun i => match i with O => 0 | _ => v - 40 end) = v) /\
  (100 <= v <= 150 ->
   base_hp_of (fun i => match i with O => 2 ^ 53 - 1 | _ => v - 100 end) = v).
Proof.
  split; intros Hv; unfold base_hp_of; rewrite low_range_threshold; cbn beta iota.
  - change (0 mod 2 ^ 53 <? 7205759403792794) with true. cbn iota.
    rewrite Z.mod_small; lia.
  - change ((2 ^ 53 - 1) mod 2 ^ 53 <? 7205759403792794) with false. cbn iota.
    rewrite Z.mod_small; lia.
Qed.

(** ** C2: two attacks *)

(** C2. For every prompt and every sequence of draws the engine returns a
    card whose [attacks] has length exactly 2. *)
Theorem attacks_length_two image_url prompt g :
  exists card,
    result (analyze_image_and_generate_stats image_url prompt g) = Ok card /\
    List.length (CardMetadata.attacks card) = 2%nat.
Proof.
  destruct (synthesis_returns image_url prompt g) as [card [s [dm [Hrun [_ [_ Hpost]]]]]].
  destruct Hpost as [_ [_ [_ [_ [Hattacks _]]]]].
  destruct Hattacks as [a1 [a2 [Heq _]]].
  exists card. split; [exact Hrun |]. rewrite Heq. reflexivity.
Qed.

(** ** C3: rarity *)

Lemma rarity_of_score_thresholds x : rarity_of_score x = rarity_by_thresholds x.
Proof.
  unfold rarity_of_score, rarity_by_thresholds, rarity_thresholds.
  cbn [List.find fst snd].
  repeat match goal with
         | |- context [if ?c then _ else _] => destruct c; try reflexivity
         end.
Qed.

(** The order of floats is transitive. *)
Lemma leb_trans x y z :
  Float.leb x y = true -> Float.leb y z = true -> Float.leb x z = true.
Proof.
  unfold Float.leb, SFleb, SFcompare.
  destruct x as [sx | sx | | sx mx ex], y as [sy | sy | | sy my ey],
           z as [sz | sz | | sz mz ez];
    try discriminate; try reflexivity;
    repeat match goal with
           | s : bool |- _ => destruct s
           end;
    try discriminate; try reflexivity;
    repeat match goal with
           | |- context [Z.compare ?a ?b] => destruct (Z.compare_spec a b)
           | |- context [Pos.compare_cont Eq ?a ?b] =>
               change (Pos.compare_cont Eq a b) with (Pos.compare a b);
               destruct (Pos.compare_spec a b)
           end;
    simpl; intros; try discriminate; try reflexivity; lia.
Qed.

Lemma rarity_monotone x y :
  Float.leb x y = true ->
  (tier (rarity_by_thresholds x) <= tier (rarity_by_thresholds y))%nat.
Proof.
  intros Hxy.
  assert (Hup : forall t, Float.leb t x = true -> Float.leb t y = true)
    by (intros t Ht; exact (leb_trans _ _ _ Ht Hxy)).
  unfold rarity_by_thresholds, rarity_thresholds. cbn [List.find fst snd].
  destruct (Float.leb (Float.of_int 12) x) eqn:X12;
    [rewrite (Hup _ X12); apply Nat.le_refl |].
  destruct (Float.leb (Float.of_int 9) x) eqn:X9.
  { rewrite (Hup _ X9). destruct (Float.leb (Float.of_int 12) y); vm_compute; lia. }
  destruct (Float.leb (Float.of_int 6) x) eqn:X6.
  { rewrite (Hup _ X6).
    destruct (Float.leb (Float.of_int 12) y), (Float.leb (Float.of_int 9) y); vm_compute; lia. }
  destruct (Float.leb (Float.of_int 4) x) eqn:X4.
  { rewrite (Hup _ X4).
    destruct (Float.leb (Float.of_int 12) y), (Float.leb (Float.of_int 9) y),
             (Float.leb (Float.of_int 6) y); vm_compute; lia. }
  vm_compute. lia.
Qed.

(** C3. For every prompt the rarity of the card is the fixed threshold
    mapping of [rarity_score = complexity_score + 2 * power_multiplier]
    (12 Legendary, 9 Epic, 6 Rare, 4 Uncommon, else Common), and that
    mapping does not decrease, in the order Common < Uncommon < Rare <
    Epic < Legendary, when the score grows. *)
Theorem rarity_threshold_mapping :
  (forall image_url prompt g,
     let analysis := simulate_vision_analysis image_url prompt in
     exists card,
       result (analyze_image_and_generate_stats image_url prompt g) = Ok card /\
       CardMetadata.rarity card =
       rarity_by_thresholds
         (Float.add (Float.of_int (complexity_score analysis))
            (Float.mul (apparent_power_level analysis) (Float.of_int 2)))) /\
  (forall x y,
     Float.leb x y = true ->
     (tier (rarity_by_thresholds x) <= tier (rarity_by_thresholds y))%nat) /\
  map tier RARITIES = [0; 1; 2; 3; 4]%nat.
Proof.
  split; [| split; [exact rarity_monotone | reflexivity]].
  intros image_url prompt g analysis.
  destruct (synthesis_returns image_url prompt g) as [card [s [dm [Hrun [_ [_ Hpost]]]]]].
  destruct Hpost as [_ [_ [Hrarity _]]].
  exists card. split; [exact Hrun |].
  rewrite Hrarity. apply rarity_of_score_thresholds.
Qed.

(** Scores 5 and 10: Uncommon and Epic. *)
Lemma rarity_threshold_mapping_witness :
  Float.leb (Float.of_int 5) (Float.of_int 10) = true /\
  (tier (rarity_by_thresholds (Float.of_int 5)) <=
   tier (rarity_by_thresholds (Float.of_int 10)))%nat.
Proof.
  split; [reflexivity |].
  apply (proj1 (proj2 rarity_threshold_mapping)). reflexivity.
Defined.

(** ** C4: determinism *)

Lemma agree_le n n' g1 g2 : (n <= n')%nat -> agree n' g1 g2 -> agree n g1 g2.
Proof. intros Hle H i Hi. apply H. lia. Qed.

Section Reads.

Context {A B : Type}.

Lemma reads_ret n (a : A) : reads n (ret a).
Proof.
  intros k g1 g2 H. simpl. split; [reflexivity |].
  eapply agree_le; [| exact H]. lia.
Qed.

Lemma reads_raise n (e : exn) : reads n (raise e : M A).
Proof. intros k g1 g2 H. reflexivity. Qed.

Lemma reads_lift n (o : exn + A) : reads n (lift o).
Proof. destruct o; [apply reads_raise | apply reads_ret]. Qed.

Lemma reads_bound n (v : option A) : reads n (bound v).
Proof. destruct v; [apply reads_ret | apply reads_raise]. Qed.

Lemma reads_bind n n' (m : M A) (f : A -> M B) :
  reads n m -> (forall a, reads n' (f a)) -> reads (n + n') (bind m f).
Proof.
  intros Hm Hf k g1 g2 H. unfold bind.
  assert (H' : agree (n + (n' + k)) g1 g2)
    by (eapply agree_le; [| exact H]; lia).
  specialize (Hm _ _ _ H'). unfold same_outcome in Hm.
  destruct (m g1) as [[a1 g1'] | e1], (m g2) as [[a2 g2'] | e2];
    try contradiction.
  - destruct Hm as [<- Hg]. apply Hf, Hg.
  - exact Hm.
Qed.

End Reads.

Lemma reads_next n : reads (S n) Random.next.
Proof.
  intros k g1 g2 H. simpl. split.
  - apply H. lia.
  - intros i Hi. apply H. lia.
Qed.

Lemma reads_random : reads 1 Random.random.
Proof.
  unfold Random.random. apply (reads_bind 1 0); [apply reads_next |].
  intros d. apply reads_ret.
Qed.

Lemma reads_randint a b : reads 1 (Random.randint a b).
Proof.
  unfold Random.randint, Random.randbelow.
  apply (reads_bind 1 0); [| intros k; apply reads_ret].
  apply (reads_bind 1 0); [apply reads_next | intros d; apply reads_ret].
Qed.

Lemma reads_choice {A} (seq : list A) : reads 1 (Random.choice seq).
Proof.
  unfold Random.choice. destruct seq as [| x seq']; [apply reads_raise |].
  apply (reads_bind 1 0).
  - unfold Random.randbelow.
    apply (reads_bind 1 0); [apply reads_next | intros d; apply reads_ret].
  - intros k. destruct (nth_error _ _); [apply reads_ret | apply reads_raise].
Qed.

Lemma reads_generate_creature_name chars element :
  reads 2 (generate_creature_name chars element).
Proof.
  unfold generate_creature_name.
  apply (reads_bind 1 1); [apply reads_choice |]. intros prefix.
  apply (reads_bind 1 0); [apply reads_choice |]. intros suffix.
  apply reads_ret.
Qed.

Lemma reads_generate_contextual_attacks chars element hp rarity :
  reads 3 (generate_contextual_attacks chars element hp rarity).
Proof.
  unfold generate_contextual_attacks.
  apply (reads_bind 0 3); [apply reads_lift |]. intros fire.
  apply (reads_bind 1 2).
  { destruct (truthy _); [| apply reads_ret].
    apply (reads_bind 1 0); [apply reads_choice |]. intros [[n b] d].
    apply (reads_bind 0 0); [apply reads_lift |]. intros dm.
    apply (reads_bind 0 0); [apply reads_lift |]. intros s.
    apply reads_ret. }
  intros [attacks damage_multiplier].
  apply (reads_bind 1 1); [apply reads_random |]. intros u.
  apply (reads_bind 1 0); [| intros attacks'; apply reads_ret].
  destruct (Float.ltb u _).
  - destruct (if _ <? _ then _ else _) as [| secondary_style rest]; [apply reads_ret |].
    destruct (truthy _); [| apply reads_ret].
    apply (reads_bind 1 0); [apply reads_choice |]. intros [[n b] d].
    apply (reads_bind 0 0); [apply reads_bound |]. intros dm.
    apply (reads_bind 0 0); [apply reads_lift |]. intros s.
    apply reads_ret.
  - apply (reads_bind 1 0); [apply reads_choice |]. intros utility_type.
    apply (reads_bind 0 0); [apply reads_lift |]. intros [[n dmg] d].
    apply reads_ret.
Qed.

Lemma reads_generate_flavor_text chars original_prompt :
  reads 1 (generate_flavor_text chars original_prompt).
Proof.
  unfold generate_flavor_text.
  apply (reads_bind 0 1); [apply reads_lift |]. intros beast.
  apply reads_choice.
Qed.

Lemma reads_generate_stats_from_analysis analysis :
  reads 8 (generate_stats_from_analysis analysis).
Proof.
  unfold generate_stats_from_analysis.
  apply (reads_bind 1 7); [apply reads_random |]. intros u.
  apply (reads_bind 1 6); [destruct (Float.ltb u _); apply reads_randint |]. intros base_hp.
  apply (reads_bind 0 6); [apply reads_lift |]. intros s.
  apply (reads_bind 2 4); [apply reads_generate_creature_name |]. intros name.
  apply (reads_bind 3 1); [apply reads_generate_contextual_attacks |]. intros attacks.
  apply (reads_bind 1 0); [apply reads_generate_flavor_text |]. intros text.
  apply reads_ret.
Qed.

(** C4. The card is a function of the prompt and of the draws: two runs
    on the same prompt whose generators give the same eight draws (the
    same seed) return the same card, field by field, whatever the image
    reference and whatever the generators give later. *)
Theorem synthesis_deterministic image_url1 image_url2 prompt g1 g2 :
  agree 8 g1 g2 ->
  exists card,
    result (analyze_image_and_generate_stats image_url1 prompt g1) = Ok card /\
    result (analyze_image_and_generate_stats image_url2 prompt g2) = Ok card.
Proof.
  intros H.
  destruct (synthesis_returns image_url1 prompt g1) as [card [_ [_ [Hrun _]]]].
  exists card. split; [exact Hrun |].
  pose proof (reads_generate_stats_from_analysis
                (simulate_vision_analysis image_url1 prompt) O g1 g2 H) as Hsame.
  change (generate_stats_from_analysis (simulate_vision_analysis image_url1 prompt))
    with (analyze_image_and_generate_stats image_url1 prompt) in Hsame.
  change (analyze_image_and_generate_stats image_url1 prompt g2)
    with (analyze_image_and_generate_stats image_url2 prompt g2) in Hsame.
  unfold same_outcome in Hsame. unfold result in *.
  destruct (analyze_image_and_generate_stats image_url1 prompt g1) as [[c1 g1'] | e1];
    [| discriminate].
  destruct (analyze_image_and_generate_stats image_url2 prompt g2) as [[c2 g2'] | e2];
    [| contradiction].
  destruct Hsame as [<- _]. exact Hrun.
Qed.

(** Two generators that part after the eighth draw, on two image
    references. *)
Lemma synthesis_deterministic_witness :
  exists card,
    result (analyze_image_and_generate_stats "a.png" "a tiny fire dragon"
              (fun _ => 7)) = Ok card /\
    result (analyze_image_and_generate_stats "b.png" "a tiny fire dragon"
              (fun i => if (i <? 8)%nat then 7 else 11)) = Ok card.
Proof.
  apply synthesis_deterministic.
  intros i Hi. apply Nat.ltb_lt in Hi. rewrite Hi. reflexivity.
Defined.

(** ** C5: the power multiplier *)

(** C5, as stated, fails: this prompt contains [massive] and [ancient],
    and its multiplier is the 1.5 of [huge], which comes first in the
    table. *)
Lemma massive_ancient_counterexample :
  let prompt := "a huge massive ancient dragon" in
  Str.contains "massive" (Str.lower prompt) = true /\
  Str.contains "ancient" (Str.lower prompt) = true /\
  apparent_power_level (simulate_vision_analysis "" prompt) = Float.lit 15 10 /\
  apparent_power_level (simulate_vision_analysis "" prompt) <> Float.lit 18 10.
Proof.
  cbv zeta. repeat split; try (vm_compute; reflexivity).
  vm_compute. discriminate.
Qed.

(** C5, amended. For every prompt, [power_multiplier] is the multiplier
    of the first entry of the ordered size table whose keyword occurs in
    the lower-cased prompt, and 1.0 if none occurs; for a prompt that
    contains [massive] and [ancient] and none of the six keywords that
    precede [massive] in the table, it is 1.8, whichever of the two comes
    first in the prompt. *)
Theorem power_multiplier_first_match image_url prompt :
  apparent_power_level (simulate_vision_analysis image_url prompt)
  = power_multiplier_spec prompt /\
  (Str.contains "massive" (Str.lower prompt) = true ->
   Str.contains "ancient" (Str.lower prompt) = true ->
   any_in before_massive (Str.lower prompt) = false ->
   apparent_power_level (simulate_vision_analysis image_url prompt) = Float.lit 18 10).
Proof.
  split.
  - apply detect_power_first.
  - intros Hm _ Hnone.
    unfold any_in, before_massive in Hnone. cbn [existsb] in Hnone.
    repeat match type of Hnone with
           | (_ || _) = false => apply orb_false_iff in Hnone as [? Hnone]
           end.
    cbn [simulate_vision_analysis apparent_power_level].
    unfold size_indicators. cbn [detect_power].
    repeat match goal with
           | H : Str.contains ?k ?p = _ |- context [Str.contains ?k ?p] => rewrite H
           end.
    reflexivity.
Qed.

(** [massive] after [ancient] in the prompt, and no earlier keyword. *)
Lemma power_multiplier_first_match_witness :
  apparent_power_level (simulate_vision_analysis "" "legendary ancient massive dragon")
  = Float.lit 18 10.
Proof.
  apply (proj2 (power_multiplier_first_match "" "legendary ancient massive dragon"));
    vm_compute; reflexivity.
Defined.

(** ** C6: the defaults *)

(** Whatever the prompt, the classifiers return a populated structure. *)
Lemma classification_range image_url prompt :
  let analysis := simulate_vision_analysis image_url prompt in
  In (creature_type (creature_characteristics analysis)) ARCHETYPES /\
  In (detected_element analysis) CREATURE_TYPES /\
  combat_styles (creature_characteristics analysis) <> [] /\
  incl (combat_styles (creature_characteristics analysis)) STYLES.
Proof.
  cbv zeta. repeat split.
  - pose proof (detect_type_range creature_types (Str.lower prompt) "beast") as H.
    cbn [simulate_vision_analysis creature_characteristics
         extract_creature_characteristics creature_type].
    simpl in H. unfold ARCHETYPES. simpl. intuition.
  - pose proof (detect_element_range element_keywords (Str.lower prompt) "Fire") as H.
    cbn [simulate_vision_analysis detected_element].
    change (map Str.title (Dict.keys element_keywords))
      with ["Fire"; "Water"; "Earth"; "Air"; "Dark"; "Light"] in H.
    unfold CREATURE_TYPES. simpl in H |- *. intuition.
  - cbn [simulate_vision_analysis creature_characteristics
         extract_creature_characteristics combat_styles].
    destruct (any_in slashing_words _), (any_in fire_words _),
             (any_in magic_words _), (any_in biting_words _); discriminate.
  - cbn [simulate_vision_analysis creature_characteristics
         extract_creature_characteristics combat_styles].
    destruct (any_in slashing_words _), (any_in fire_words _),
             (any_in magic_words _), (any_in biting_words _);
      intros x Hx; simpl in Hx |- *; intuition.
Qed.

(** C6. For every prompt in which no archetype keyword, no element
    keyword and no combat-style keyword occurs, the classification is the
    documented default: archetype [beast], element [Fire], combat styles
    exactly [physical]; and the engine returns a card of type [Fire] for
    it, whatever the draws: nothing fails on the way. *)
Theorem classification_defaults image_url prompt :
  no_keyword creature_types (Str.lower prompt) = true ->
  no_keyword element_keywords (Str.lower prompt) = true ->
  any_in style_words (Str.lower prompt) = false ->
  let analysis := simulate_vision_analysis image_url prompt in
  creature_type (creature_characteristics analysis) = "beast" /\
  detected_element analysis = "Fire" /\
  combat_styles (creature_characteristics analysis) = ["physical"] /\
  forall g, exists card,
    result (analyze_image_and_generate_stats image_url prompt g) = Ok card /\
    CardMetadata.type card = "Fire".
Proof.
  intros Ht He Hs analysis.
  assert (Helement : detected_element analysis = "Fire")
    by (apply detect_element_none; exact He).
  split; [apply detect_type_none; exact Ht |].
  split; [exact Helement |].
  split.
  - unfold style_words, any_in in Hs. rewrite !existsb_app in Hs.
    repeat match type of Hs with
           | (_ || _) = false => apply orb_false_iff in Hs as [? Hs]
           end.
    subst analysis.
    cbn [simulate_vision_analysis creature_characteristics
         extract_creature_characteristics combat_styles].
    unfold any_in.
    repeat match goal with
           | H : existsb _ ?l = false |- context [existsb _ ?l] => rewrite H
           end.
    reflexivity.
  - intros g.
    destruct (synthesis_returns image_url prompt g) as [card [s [dm [Hrun [_ [_ Hpost]]]]]].
    destruct Hpost as [_ [Htype _]].
    exists card. split; [exact Hrun |].
    rewrite Htype. exact Helement.
Qed.

(** The prompt of the specification's second scenario. *)
Lemma classification_defaults_witness :
  let analysis := simulate_vision_analysis "" "xyz qqq" in
  creature_type (creature_characteristics analysis) = "beast" /\
  detected_element analysis = "Fire" /\
  combat_styles (creature_characteristics analysis) = ["physical"] /\
  forall g, exists card,
    result (analyze_image_and_generate_stats "" "xyz qqq" g) = Ok card /\
    CardMetadata.type card = "Fire".
Proof.
  apply (classification_defaults "" "xyz qqq"); vm_compute; reflexivity.
Defined.

(** ** C7: the fallback of the secondary attack *)

(** C7, as stated, fails: here the element is Earth, the styles are
    slashing and biting, the secondary attack is offensive and Earth has
    no biting templates; the secondary attack is Earth's slashing template
    [Stone Claw], the list the primary attack was drawn from, and not the
    [Boulder Throw] of Earth's physical list. *)
Lemma secondary_fallback_counterexample :
  detected_element (simulate_vision_analysis "" rock_prompt) = "Earth" /\
  combat_styles (extract_creature_characteristics rock_prompt) = ["slashing"; "biting"] /\
  offensive (drop 5 zeros) = true /\
  Dict.find (element_attacks_of "Earth") "biting" = None /\
  Dict.get (element_attacks_of "Earth") "physical" generic_strike
  = [("Boulder Throw", 45, "Hurls massive rocks")] /\
  result (analyze_image_and_generate_stats "" rock_prompt zeros)
  = Ok (CardMetadata.mk "Stoneclaw" 40 "Earth" "Uncommon"
          "A fierce predator that rules its territory with strength."
          [ Attack.mk "Stone Claw" 38 "Cuts with razor-sharp stone";
            Attack.mk "Stone Claw" 30 "Cuts with razor-sharp stone" ]).
Proof. repeat split; vm_compute; reflexivity. Qed.

(** C7, amended. Whenever the secondary attack takes the offensive branch
    and the chosen secondary style (the next detected style, or [magic] if
    only one was detected) has no template list for the card's element,
    the secondary attack is drawn from the list the primary attack was
    drawn from: the primary style's list for the element if there is one,
    else the element's physical list, else the generic Strike; its damage
    is scaled by 0.8 and is at least 10. *)
Theorem secondary_falls_back_to_primary image_url prompt g :
  let analysis := simulate_vision_analysis image_url prompt in
  let styles := combat_styles (creature_characteristics analysis) in
  let element_attacks := element_attacks_of (detected_element analysis) in
  let style_attacks := primary_templates element_attacks (primary_style_of styles) in
  offensive (drop 5 g) = true ->
  Dict.find element_attacks (secondary_style_of styles) = None ->
  (Dict.find element_attacks (primary_style_of styles) = None ->
   style_attacks = Dict.get element_attacks "physical" generic_strike) /\
  exists card a1 a2 n b d dm s,
    result (analyze_image_and_generate_stats image_url prompt g) = Ok card /\
    CardMetadata.attacks card = [a1; a2] /\
    In (n, b, d) style_attacks /\
    Dict.find damage_multipliers (CardMetadata.rarity card) = Some dm /\
    int_of_float (Float.mul (Float.mul (Float.of_int b) dm) (Float.lit 8 10)) = inr s /\
    a2 = Attack.mk n (Z.max 10 s) d.
Proof.
  intros analysis styles element_attacks style_attacks Hoff Hnone. split.
  - intros Hprim. unfold style_attacks, primary_templates, Dict.get at 1.
    rewrite Hprim. reflexivity.
  - destruct (synthesis_returns image_url prompt g) as [card [s0 [dm [Hrun [_ [Hdm Hpost]]]]]].
    destruct Hpost as [_ [_ [Hrarity [_ [Hattacks _]]]]].
    destruct Hattacks as [a1 [a2 [Heq [_ Hsecond]]]].
    change (offensive (drop 1 (drop 4 g))) with (offensive (drop 5 g)) in Hsecond.
    rewrite Hoff in Hsecond.
    destruct Hsecond as [n [b [d [s [Hin [Hs Ha2]]]]]].
    unfold secondary_templates, Dict.get in Hin.
    fold analysis in Hin. fold styles in Hin. fold element_attacks in Hin.
    rewrite Hnone in Hin.
    exists card, a1, a2, n, b, d, dm, s.
    rewrite Hrarity. auto 10.
Qed.

(** The prompt of the counterexample: the secondary attack comes from
    the list of the primary one. *)
Lemma secondary_falls_back_to_primary_witness :
  exists card a1 a2 n b d dm s,
    result (analyze_image_and_generate_stats "" rock_prompt zeros) = Ok card /\
    CardMetadata.attacks card = [a1; a2] /\
    In (n, b, d)
       (primary_templates
          (element_attacks_of (detected_element (simulate_vision_analysis "" rock_prompt)))
          (primary_style_of
             (combat_styles
                (creature_characteristics (simulate_vision_analysis "" rock_prompt))))) /\
    Dict.find damage_multipliers (CardMetadata.rarity card) = Some dm /\
    int_of_float (Float.mul (Float.mul (Float.of_int b) dm) (Float.lit 8 10)) = inr s /\
    a2 = Attack.mk n (Z.max 10 s) d.
Proof.
  apply (proj2 (secondary_falls_back_to_primary "" rock_prompt zeros
                  ltac:(vm_compute; reflexivity) ltac:(vm_compute; reflexivity))).
Defined.

(** ** C8: the damage of the attacks *)

Lemma utility_damage hp a :
  In a (map (fun kv => attack_of_template (snd kv)) (utility_attacks hp)) ->
  Attack.damage a = 0.
Proof.
  simpl. intros H.
  repeat (destruct H as [<- | H]; [reflexivity |]). contradiction.
Qed.

(** C8. For every generated card: the damage of the primary attack is
    [max(15, int(base_damage * m))], with [m] the multiplier of the card's
    rarity (Common 0.9, Uncommon 1.0, Rare 1.1, Epic 1.2, Legendary 1.3);
    the damage of an offensive secondary attack is
    [max(10, int(base_damage * m * 0.8))]; the damage of a utility
    secondary attack is 0; so every damage is an integer that is not
    negative. *)
Theorem attack_damage_formulas image_url prompt g :
  let analysis := simulate_vision_analysis image_url prompt in
  let styles := combat_styles (creature_characteristics analysis) in
  let element_attacks := element_attacks_of (detected_element analysis) in
  let style_attacks := primary_templates element_attacks (primary_style_of styles) in
  exists card a1 a2 dm,
    result (analyze_image_and_generate_stats image_url prompt g) = Ok card /\
    CardMetadata.attacks card = [a1; a2] /\
    Dict.find rarity_multipliers (CardMetadata.rarity card) = Some dm /\
    (exists n b d s,
       In (n, b, d) style_attacks /\
       int_of_float (Float.mul (Float.of_int b) dm) = inr s /\
       Attack.damage a1 = Z.max 15 s) /\
    (if offensive (drop 5 g)
     then exists n b d s,
         In (n, b, d) (secondary_templates element_attacks (secondary_style_of styles)
                         style_attacks) /\
         int_of_float (Float.mul (Float.mul (Float.of_int b) dm) (Float.lit 8 10)) = inr s /\
         Attack.damage a2 = Z.max 10 s
     else Attack.damage a2 = 0) /\
    0 <= Attack.damage a1 /\ 0 <= Attack.damage a2.
Proof.
  intros analysis styles element_attacks style_attacks.
  destruct (synthesis_returns image_url prompt g) as [card [s0 [dm [Hrun [_ [Hdm Hpost]]]]]].
  destruct Hpost as [_ [_ [Hrarity [_ [Hattacks _]]]]].
  destruct Hattacks as [a1 [a2 [Heq [Hfirst Hsecond]]]].
  change (offensive (drop 1 (drop 4 g))) with (offensive (drop 5 g)) in Hsecond.
  fold analysis in Hfirst, Hsecond. fold styles in Hfirst, Hsecond.
  fold element_attacks in Hfirst, Hsecond. fold style_attacks in Hfirst, Hsecond.
  exists card, a1, a2, dm.
  split; [exact Hrun |]. split; [exact Heq |].
  split; [rewrite Hrarity; exact Hdm |].
  destruct Hfirst as [n1 [b1 [d1 [s1 [Hin1 [Hs1 ->]]]]]].
  split; [exists n1, b1, d1, s1; auto |].
  destruct (offensive (drop 5 g)).
  - destruct Hsecond as [n2 [b2 [d2 [s2 [Hin2 [Hs2 ->]]]]]].
    split; [exists n2, b2, d2, s2; auto |].
    simpl. lia.
  - apply utility_damage in Hsecond.
    split; [exact Hsecond |]. simpl. lia.
Qed.

(** ** C9: the descriptors *)

(** Two analyses that differ in their descriptors and in the prompt they
    carry, and in nothing else, give the same run: neither field is read
    by anything that decides the card. *)
Lemma generate_stats_ignores_descriptors power element complexity type styles
    descriptors1 descriptors2 prompt1 prompt2 g :
  generate_stats_from_analysis
    (mkAnalysis power element complexity (mkCharacteristics type styles descriptors1) prompt1) g
  = generate_stats_from_analysis
      (mkAnalysis power element complexity (mkCharacteristics type styles descriptors2) prompt2) g.
Proof. reflexivity. Qed.

Lemma analyses_alike (a1 a2 : Analysis) g :
  apparent_power_level a1 = apparent_power_level a2 ->
  detected_element a1 = detected_element a2 ->
  complexity_score a1 = complexity_score a2 ->
  creature_type (creature_characteristics a1) = creature_type (creature_characteristics a2) ->
  combat_styles (creature_characteristics a1) = combat_styles (creature_characteristics a2) ->
  generate_stats_from_analysis a1 g = generate_stats_from_analysis a2 g.
Proof.
  destruct a1 as [p1 e1 c1 [t1 s1 d1] o1], a2 as [p2 e2 c2 [t2 s2 d2] o2]. simpl.
  intros -> -> -> -> ->. apply generate_stats_ignores_descriptors.
Qed.

(** C9. The descriptors are the tokens of the lower-cased prompt longer
    than 4 characters, and they are not scored: for two prompts whose
    classifications differ in the descriptors only, the engine returns,
    on the same draws, cards with the same hp, rarity, element, name and
    attacks. *)
Theorem descriptors_not_scored image_url1 image_url2 prompt1 prompt2 g :
  let a1 := simulate_vision_analysis image_url1 prompt1 in
  let a2 := simulate_vision_analysis image_url2 prompt2 in
  apparent_power_level a1 = apparent_power_level a2 ->
  detected_element a1 = detected_element a2 ->
  complexity_score a1 = complexity_score a2 ->
  creature_type (creature_characteristics a1) = creature_type (creature_characteristics a2) ->
  combat_styles (creature_characteristics a1) = combat_styles (creature_characteristics a2) ->
  descriptors (creature_characteristics a1)
  = filter (fun word => 4 <? Str.len word) (Str.split (Str.lower prompt1)) /\
  exists card1 card2,
    result (analyze_image_and_generate_stats image_url1 prompt1 g) = Ok card1 /\
    result (analyze_image_and_generate_stats image_url2 prompt2 g) = Ok card2 /\
    CardMetadata.hp card1 = CardMetadata.hp card2 /\
    CardMetadata.rarity card1 = CardMetadata.rarity card2 /\
    CardMetadata.type card1 = CardMetadata.type card2 /\
    CardMetadata.name card1 = CardMetadata.name card2 /\
    CardMetadata.attacks card1 = CardMetadata.attacks card2.
Proof.
  intros a1 a2 Hp He Hc Ht Hs. split; [reflexivity |].
  destruct (synthesis_returns image_url1 prompt1 g) as [card [_ [_ [Hrun _]]]].
  exists card, card. split; [exact Hrun |].
  split; [| auto].
  unfold analyze_image_and_generate_stats in *.
  fold a1 in Hrun. fold a2.
  rewrite <- (analyses_alike a1 a2 g Hp He Hc Ht Hs). exact Hrun.
Qed.

Example descriptors_differ :
  descriptors (extract_creature_characteristics fierce_tiger) = ["fierce"; "tiger"] /\
  descriptors (extract_creature_characteristics tiger_fierce) = ["tiger"; "fierce"].
Proof. split; vm_compute; reflexivity. Qed.

Lemma descriptors_not_scored_witness :
  descriptors (creature_characteristics (simulate_vision_analysis "" fierce_tiger))
  = filter (fun word => 4 <? Str.len word) (Str.split (Str.lower fierce_tiger)) /\
  exists card1 card2,
    result (analyze_image_and_generate_stats "" fierce_tiger zeros) = Ok card1 /\
    result (analyze_image_and_generate_stats "" tiger_fierce zeros) = Ok card2 /\
    CardMetadata.hp card1 = CardMetadata.hp card2 /\
    CardMetadata.rarity card1 = CardMetadata.rarity card2 /\
    CardMetadata.type card1 = CardMetadata.type card2 /\
    CardMetadata.name card1 = CardMetadata.name card2 /\
    CardMetadata.attacks card1 = CardMetadata.attacks card2.
Proof.
  apply (descriptors_not_scored "" "" fierce_tiger tiger_fierce zeros);
    vm_compute; reflexivity.
Defined.

(** The flavor text does not read the descriptors either: for such
    prompts the whole card is the same. *)
Remark flavor_text_ignores_descriptors image_url1 image_url2 prompt1 prompt2 g :
  let a1 := simulate_vision_analysis image_url1 prompt1 in
  let a2 := simulate_vision_analysis image_url2 prompt2 in
  apparent_power_level a1 = apparent_power_level a2 ->
  detected_element a1 = detected_element a2 ->
  complexity_score a1 = complexity_score a2 ->
  creature_type (creature_characteristics a1) = creature_type (creature_characteristics a2) ->
  combat_styles (creature_characteristics a1) = combat_styles (creature_characteristics a2) ->
  analyze_image_and_generate_stats image_url1 prompt1 g
  = analyze_image_and_generate_stats image_url2 prompt2 g.
Proof.
  intros a1 a2 Hp He Hc Ht Hs. exact (analyses_alike a1 a2 g Hp He Hc Ht Hs).
Qed.

(** ** C10: the flavor text of the unmapped archetypes *)

Lemma unmapped_archetype_flavor archetype :
  In archetype ["demon"; "angel"; "undead"] ->
  flavor_templates_of archetype = beast_sentences.
Proof.
  intros H. simpl in H.
  repeat (destruct H as [<- | H]; [reflexivity |]). contradiction.
Qed.

(** C10. For every prompt classified with archetype [demon], [angel] or
    [undead] the flavor text is drawn from the [beast] list, at the index
    the eighth draw selects among its three sentences: the table of
    flavor templates has the keys dragon, wolf, bird, beast and elemental
    only, and any other archetype takes the [beast] default. *)
Theorem flavor_defaults_to_beast image_url prompt g :
  In (creature_type (creature_characteristics (simulate_vision_analysis image_url prompt)))
     ["demon"; "angel"; "undead"] ->
  Dict.keys flavor_templates = ["dragon"; "wolf"; "bird"; "beast"; "elemental"] /\
  exists card,
    result (analyze_image_and_generate_stats image_url prompt g) = Ok card /\
    nth_error beast_sentences (Z.to_nat (g 7%nat mod 3)) = Some (CardMetadata.flavorText card) /\
    In (CardMetadata.flavorText card) beast_sentences.
Proof.
  intros Htype. split; [reflexivity |].
  destruct (synthesis_returns image_url prompt g) as [card [s [dm [Hrun [_ [_ Hpost]]]]]].
  destruct Hpost as [_ [_ [_ [_ [_ Hflavor]]]]].
  exists card. split; [exact Hrun |].
  unfold flavor_post in Hflavor.
  rewrite (unmapped_archetype_flavor _ Htype) in Hflavor. exact Hflavor.
Qed.

(** A demon, an angel and a ghost. *)
Lemma flavor_defaults_to_beast_witness :
  Dict.keys flavor_templates = ["dragon"; "wolf"; "bird"; "beast"; "elemental"] /\
  exists card,
    result (analyze_image_and_generate_stats "" "a demon of the void" zeros) = Ok card /\
    nth_error beast_sentences (Z.to_nat (zeros 7%nat mod 3))
    = Some (CardMetadata.flavorText card) /\
    In (CardMetadata.flavorText card) beast_sentences.
Proof.
  apply (flavor_defaults_to_beast "" "a demon of the void" zeros).
  vm_compute. left. reflexivity.
Defined.

(** * The rest of the code *)

(** ** White space and words *)

Lemma split_from_word w s : Str.is_empty w = false -> Str.split_from w s <> [].
Proof.
  revert w. induction s as [| c s IH]; intros w Hw; cbn [Str.split_from].
  - rewrite Hw. discriminate.
  - destruct (Str.isspace c).
    + rewrite Hw. discriminate.
    + apply IH. destruct w; reflexivity.
Qed.

Lemma lstrip_head s :
  lstrip s = EmptyString \/
  exists c r, lstrip s = String c r /\ Str.isspace c = false.
Proof.
  induction s as [| c s IH]; cbn [lstrip]; [now left |].
  destruct (Str.isspace c) eqn:E; [exact IH |].
  right. exists c, s. auto.
Qed.

Lemma lstrip_empty_split s : Str.is_empty (lstrip s) = true <-> Str.split s = [].
Proof.
  unfold Str.split. induction s as [| c s IH]; cbn [lstrip Str.split_from Str.is_empty].
  - tauto.
  - destruct (Str.isspace c).
    + exact IH.
    + cbn [Str.is_empty]. split; [discriminate |].
      intros H. exfalso. revert H. apply split_from_word. reflexivity.
Qed.

(** A prompt is blank for [strip] exactly when it has no word for
    [split]. *)
Lemma strip_empty_split s : Str.is_empty (strip s) = true <-> Str.split s = [].
Proof.
  rewrite <- lstrip_empty_split. unfold strip.
  destruct (lstrip_head s) as [-> | [c [r [-> Hc]]]].
  - reflexivity.
  - cbn [rstrip]. rewrite Hc. cbn [andb Str.is_empty]. reflexivity.
Qed.

(** ** The draws of a run *)

Lemma run_ok {A} (m : M A) (Q : A -> Rng -> Prop) g a g' :
  m g = Ok (a, g') -> Q a g' -> wp m Q g.
Proof. unfold wp. intros ->. trivial. Qed.

(** A run of the engine returns, and it has taken eight draws then,
    whatever the branches it went through. *)
Lemma synthesis_run image_url prompt g :
  let analysis := simulate_vision_analysis image_url prompt in
  exists card s dm,
    analyze_image_and_generate_stats image_url prompt g = Ok (card, drop 8 g) /\
    int_of_float (Float.mul (Float.of_int (base_hp_of g)) (apparent_power_level analysis))
    = inr s /\
    Dict.find damage_multipliers (rarity_of_analysis analysis) = Some dm /\
    stats_post analysis s dm g card.
Proof.
  intros analysis.
  destruct (synthesis_spec image_url prompt g) as [s [dm [Hs [Hdm Hwp]]]].
  apply wp_run in Hwp as [card [g' [Hrun [-> Hpost]]]].
  exists card, s, dm. auto.
Qed.

(** X1. Every run of the engine takes exactly eight draws from the
    generator, on every path: two runs in sequence return the card of the
    first on [g] and the card of the second on [g] advanced by eight
    draws, and leave [g] advanced by sixteen. *)
Theorem synthesis_takes_eight_draws image_url1 prompt1 image_url2 prompt2 g :
  exists card1 card2,
    (card1 <- analyze_image_and_generate_stats image_url1 prompt1 ;;
     card2 <- analyze_image_and_generate_stats image_url2 prompt2 ;;
     ret (card1, card2)) g = Ok ((card1, card2), drop 16 g) /\
    analyze_image_and_generate_stats image_url1 prompt1 g = Ok (card1, drop 8 g) /\
    analyze_image_and_generate_stats image_url2 prompt2 (drop 8 g) = Ok (card2, drop 16 g).
Proof.
  destruct (synthesis_run image_url1 prompt1 g) as [card1 [_ [_ [Hrun1 _]]]].
  destruct (synthesis_run image_url2 prompt2 (drop 8 g)) as [card2 [_ [_ [Hrun2 _]]]].
  change (drop 8 (drop 8 g)) with (drop 16 g) in Hrun2.
  exists card1, card2. split; [| split; assumption].
  unfold bind. rewrite Hrun1, Hrun2. reflexivity.
Qed.

(** ** generate_image *)

(** X2. The endpoint rejects a prompt without any word, that is an empty
    or all-white-space prompt, with the error 400 "Prompt cannot be
    empty", and takes no draw from the generator. *)
Theorem generate_image_rejects_blank placeholder_images clock_start clock_end prompt g :
  Str.split prompt = [] ->
  generate_image placeholder_images clock_start clock_end prompt g
  = Ok (HTTPException 400 "Prompt cannot be empty", g).
Proof.
  intros H. apply strip_empty_split in H.
  unfold generate_image. rewrite H. reflexivity.
Qed.

Lemma generate_image_rejects_blank_witness :
  generate_image [] (Float.of_int 0) (Float.of_int 3) "    " zeros
  = Ok (HTTPException 400 "Prompt cannot be empty", zeros).
Proof.
  apply generate_image_rejects_blank. vm_compute. reflexivity.
Defined.

(** X3. For a prompt with at least one word the endpoint answers with a
    response: the image is one of the placeholder images if there is any
    and one of the three fallback images otherwise, selected by the second
    draw; the metadata is the card the engine returns for that prompt on
    the generator advanced by two draws, so its hp is between 20 and 150
    and it has two attacks; the generation time is the difference of the
    two clock readings; ten draws are taken in all. *)
Theorem generate_image_response placeholder_images clock_start clock_end prompt g :
  Str.split prompt <> [] ->
  let available_images :=
    match placeholder_images with [] => FALLBACK_IMAGES | _ => placeholder_images end in
  exists image_url card,
    generate_image placeholder_images clock_start clock_end prompt g
    = Ok (Response (GenerateImageResponse.mk image_url (Some card)
                      (float_sub clock_end clock_start)),
          drop 10 g) /\
    nth_error available_images
      (Z.to_nat (g 1%nat mod Z.of_nat (List.length available_images))) = Some image_url /\
    analyze_image_and_generate_stats image_url prompt (drop 2 g) = Ok (card, drop 10 g) /\
    20 <= CardMetadata.hp card <= 150 /\
    List.length (CardMetadata.attacks card) = 2%nat.
Proof.
  intros Hwords available_images.
  assert (Hstrip : Str.is_empty (strip prompt) = false).
  { destruct (Str.is_empty (strip prompt)) eqn:E; [| reflexivity].
    apply strip_empty_split in E. contradiction. }
  assert (Hwp :
    wp (generate_image placeholder_images clock_start clock_end prompt)
       (fun r g' =>
          g' = drop 10 g /\
          exists image_url card,
            r = Response (GenerateImageResponse.mk image_url (Some card)
                            (float_sub clock_end clock_start)) /\
            nth_error available_images
              (Z.to_nat (g 1%nat mod Z.of_nat (List.length available_images)))
            = Some image_url /\
            analyze_image_and_generate_stats image_url prompt (drop 2 g)
            = Ok (card, drop 10 g) /\
            20 <= CardMetadata.hp card <= 150 /\
            List.length (CardMetadata.attacks card) = 2%nat) g).
  { unfold generate_image. rewrite Hstrip.
    replace (if negb (truthy placeholder_images) then FALLBACK_IMAGES else placeholder_images)
      with available_images by (destruct placeholder_images; reflexivity).
    apply wp_bind. unfold simulate_processing_time, random_uniform.
    apply wp_bind. apply wp_bind. apply wp_random. apply wp_ret. apply wp_ret.
    apply wp_bind. apply wp_choice.
    { subst available_images. destruct placeholder_images; discriminate. }
    intros image_url Hnth _.
    destruct (synthesis_run image_url prompt (drop 2 g))
      as [card [s [dm [Hrun [_ [_ Hpost]]]]]].
    apply wp_bind. eapply run_ok; [exact Hrun |].
    apply wp_ret. split; [reflexivity |].
    exists image_url, card. split; [reflexivity |]. split; [exact Hnth |].
    split; [exact Hrun |].
    destruct Hpost as [Hhp [_ [_ [_ [[a1 [a2 [Heq _]]] _]]]]].
    split; [rewrite Hhp; lia | rewrite Heq; reflexivity]. }
  apply wp_run in Hwp as [r [g' [Hrun [-> [image_url [card [-> H]]]]]]].
  exists image_url, card. split; [exact Hrun | exact H].
Qed.

Lemma generate_image_response_witness :
  exists image_url card,
    generate_image [] (Float.of_int 0) (Float.of_int 3) "a tiny fire dragon" zeros
    = Ok (Response (GenerateImageResponse.mk image_url (Some card)
                      (float_sub (Float.of_int 3) (Float.of_int 0))),
          drop 10 zeros) /\
    nth_error FALLBACK_IMAGES
      (Z.to_nat (zeros 1%nat mod Z.of_nat (List.length FALLBACK_IMAGES))) = Some image_url /\
    analyze_image_and_generate_stats image_url "a tiny fire dragon" (drop 2 zeros)
    = Ok (card, drop 10 zeros) /\
    20 <= CardMetadata.hp card <= 150 /\
    List.length (CardMetadata.attacks card) = 2%nat.
Proof.
  apply (generate_image_response [] (Float.of_int 0) (Float.of_int 3)
           "a tiny fire dragon" zeros).
  vm_compute. discriminate.
Defined.

(** ** What the draws decide *)

(** X4. The rarity and the type of a card are decided by the prompt
    alone, and its hp by the prompt and the first two draws: two runs on
    the same prompt return cards of the same rarity and type whatever
    their generators give, and of the same hp when the generators agree
    on their first two draws. *)
Theorem rarity_and_type_ignore_draws image_url1 image_url2 prompt g1 g2 :
  exists card1 card2,
    result (analyze_image_and_generate_stats image_url1 prompt g1) = Ok card1 /\
    result (analyze_image_and_generate_stats image_url2 prompt g2) = Ok card2 /\
    CardMetadata.rarity card1 = CardMetadata.rarity card2 /\
    CardMetadata.type card1 = CardMetadata.type card2 /\
    (g1 O = g2 O -> g1 1%nat = g2 1%nat -> CardMetadata.hp card1 = CardMetadata.hp card2).
Proof.
  destruct (synthesis_returns image_url1 prompt g1) as [c1 [s1 [dm1 [Hrun1 [Hs1 [_ Hpost1]]]]]].
  destruct (synthesis_returns image_url2 prompt g2) as [c2 [s2 [dm2 [Hrun2 [Hs2 [_ Hpost2]]]]]].
  destruct Hpost1 as [Hhp1 [Htype1 [Hrar1 _]]].
  destruct Hpost2 as [Hhp2 [Htype2 [Hrar2 _]]].
  exists c1, c2. split; [exact Hrun1 |]. split; [exact Hrun2 |].
  split; [rewrite Hrar1, Hrar2; reflexivity |].
  split; [rewrite Htype1, Htype2; reflexivity |].
  intros H0 H1.
  assert (Hbase : base_hp_of g1 = base_hp_of g2)
    by (unfold base_hp_of, low_range; rewrite H0, H1; reflexivity).
  rewrite Hbase in Hs1.
  change (apparent_power_level (simulate_vision_analysis image_url1 prompt))
    with (apparent_power_level (simulate_vision_analysis image_url2 prompt)) in Hs1.
  rewrite Hs1 in Hs2. injection Hs2 as <-.
  rewrite Hhp1, Hhp2. reflexivity.
Qed.

Lemma rarity_and_type_ignore_draws_witness :
  exists card1 card2,
    result (analyze_image_and_generate_stats "" rock_prompt zeros) = Ok card1 /\
    result (analyze_image_and_generate_stats "" rock_prompt
              (fun i => if (i <? 2)%nat then 0 else 5)) = Ok card2 /\
    CardMetadata.rarity card1 = CardMetadata.rarity card2 /\
    CardMetadata.type card1 = CardMetadata.type card2 /\
    CardMetadata.hp card1 = CardMetadata.hp card2.
Proof.
  destruct (rarity_and_type_ignore_draws "" "" rock_prompt zeros
              (fun i => if (i <? 2)%nat then 0 else 5))
    as [c1 [c2 [H1 [H2 [Hr [Ht Hhp]]]]]].
  exists c1, c2. repeat split; try assumption.
  apply Hhp; reflexivity.
Defined.

(** ** The fields of a card *)

Lemma known_element_prefixes element :
  In element CREATURE_TYPES ->
  exists prefixes,
    Dict.find element_prefixes element = Some prefixes /\ List.length prefixes = 5%nat.
Proof.
  intros H. simpl in H.
  repeat (destruct H as [<- | H]; [eexists; split; reflexivity |]). contradiction.
Qed.

Lemma known_type_suffixes archetype :
  In archetype ARCHETYPES ->
  exists suffixes,
    Dict.find type_suffixes archetype = Some suffixes /\ List.length suffixes = 5%nat.
Proof.
  intros H. simpl in H.
  repeat (destruct H as [<- | H]; [eexists; split; reflexivity |]). contradiction.
Qed.

(** X5. The type of every card is one of the six [CREATURE_TYPES] and
    its rarity one of the five [RARITIES]; its name is a prefix of the
    five listed for that type followed by a suffix of the five listed for
    the archetype of the prompt: in the engine the default prefix
    [Ancient] and the default suffix [beast] of the name generator are
    never used. *)
Theorem card_fields_in_tables image_url prompt g :
  exists card prefixes suffixes prefix suffix,
    result (analyze_image_and_generate_stats image_url prompt g) = Ok card /\
    In (CardMetadata.type card) CREATURE_TYPES /\
    In (CardMetadata.rarity card) RARITIES /\
    Dict.find element_prefixes (CardMetadata.type card) = Some prefixes /\
    Dict.find type_suffixes
      (creature_type (extract_creature_characteristics prompt)) = Some suffixes /\
    In prefix prefixes /\ In suffix suffixes /\
    CardMetadata.name card = prefix ++ suffix.
Proof.
  destruct (synthesis_returns image_url prompt g) as [card [s [dm [Hrun [_ [_ Hpost]]]]]].
  destruct Hpost as [_ [Htype [Hrar [Hname _]]]].
  destruct (classification_range image_url prompt) as [Harch [Helem _]].
  destruct (known_element_prefixes _ Helem) as [prefixes [Hp _]].
  destruct (known_type_suffixes _ Harch) as [suffixes [Hs _]].
  destruct Hname as [prefix [suffix [Heq [Hinp Hins]]]].
  unfold Dict.get in Hinp, Hins. rewrite Hp in Hinp.
  change (creature_type (creature_characteristics (simulate_vision_analysis image_url prompt)))
    with (creature_type (extract_creature_characteristics prompt)) in *.
  rewrite Hs in Hins.
  exists card, prefixes, suffixes, prefix, suffix.
  rewrite Htype, Hrar.
  repeat split; try assumption. apply rarity_of_score_range.
Qed.

(** ** generate_creature_name outside its tables *)

(** X6. For an element that is no key of [element_prefixes] the name
    starts with [Ancient], and for an archetype that is no key of
    [type_suffixes] it ends with [beast]: with both unknown the name is
    [Ancientbeast], and two draws are taken all the same. *)
Theorem creature_name_defaults chars element g :
  Dict.find element_prefixes element = None ->
  exists suffix,
    generate_creature_name chars element g = Ok ("Ancient" ++ suffix, drop 2 g) /\
    In suffix (Dict.get type_suffixes (creature_type chars) ["beast"]) /\
    (Dict.find type_suffixes (creature_type chars) = None -> suffix = "beast").
Proof.
  intros He.
  pose proof (generate_creature_name_spec chars element g) as Hwp.
  apply wp_run in Hwp as [name [g' [Hrun [-> [prefix [suffix [-> [Hp Hs]]]]]]]].
  unfold Dict.get in Hp. rewrite He in Hp.
  destruct Hp as [<- | []].
  exists suffix. split; [exact Hrun |]. split; [exact Hs |].
  intros Ht. unfold Dict.get in Hs. rewrite Ht in Hs.
  destruct Hs as [<- | []]. reflexivity.
Qed.

Lemma creature_name_defaults_witness :
  exists suffix,
    generate_creature_name (mkCharacteristics "golem" ["physical"] []) "Metal" zeros
    = Ok ("Ancient" ++ suffix, drop 2 zeros) /\
    In suffix (Dict.get type_suffixes "golem" ["beast"]) /\
    (Dict.find type_suffixes "golem" = None -> suffix = "beast").
Proof.
  apply (creature_name_defaults (mkCharacteristics "golem" ["physical"] []) "Metal" zeros).
  reflexivity.
Defined.

(** ** generate_contextual_attacks outside its tables *)

Lemma bind_ok {A B} (m : M A) (f : A -> M B) g a g' :
  m g = Ok (a, g') -> bind m f g = f a g'.
Proof. unfold bind. intros ->. reflexivity. Qed.

Lemma bind_raise {A B} (m : M A) (f : A -> M B) g e :
  m g = Raise e -> bind m f g = Raise e.
Proof. unfold bind. intros ->. reflexivity. Qed.

Lemma choice_returns {A} (seq : list A) g :
  seq <> [] -> exists a, Random.choice seq g = Ok (a, drop 1 g) /\ In a seq.
Proof.
  intros Hne.
  assert (Hwp : wp (Random.choice seq) (fun a g' => g' = drop 1 g /\ In a seq) g)
    by (apply wp_choice; [exact Hne | auto]).
  apply wp_run in Hwp as [a [g' [Hrun [-> Hin]]]]. eauto.
Qed.

Lemma fire_run g : lift (Dict.item attack_templates "Fire") g = Ok (fire_attacks, g).
Proof. reflexivity. Qed.

(** X7. Called with a rarity that is not one of the five keys of the
    multiplier table, the attack generator raises KeyError, whatever the
    characteristics, the element, the hp and the draws. *)
Theorem attacks_unknown_rarity chars element hp rarity g :
  Dict.find damage_multipliers rarity = None ->
  generate_contextual_attacks chars element hp rarity g = Raise KeyError.
Proof.
  intros Hnone. unfold generate_contextual_attacks. cbv zeta.
  rewrite (bind_ok _ _ _ _ _ (fire_run g)). cbv beta.
  fold (element_attacks_of element).
  fold (primary_style_of (combat_styles chars)).
  pose proof (primary_templates_ok element (primary_style_of (combat_styles chars))) as Hok.
  destruct (templates_ok_elim _ Hok) as [Hne _].
  rewrite (truthy_nonempty _ Hne).
  destruct (choice_returns _ g Hne) as [[[n b] d] [Hchoice _]].
  apply bind_raise. rewrite (bind_ok _ _ _ _ _ Hchoice).
  apply bind_raise. unfold Dict.item. rewrite Hnone. reflexivity.
Qed.

Lemma attacks_unknown_rarity_witness :
  generate_contextual_attacks (extract_creature_characteristics rock_prompt)
    "Earth" 40 "rare" zeros = Raise KeyError.
Proof.
  apply attacks_unknown_rarity. reflexivity.
Defined.

(** X8. An element that is no key of [attack_templates] gets the attacks
    of [Fire]: the run is the run for [Fire]. *)
Theorem attacks_unknown_element chars element hp rarity g :
  Dict.find attack_templates element = None ->
  generate_contextual_attacks chars element hp rarity g
  = generate_contextual_attacks chars "Fire" hp rarity g.
Proof.
  intros Hnone. unfold generate_contextual_attacks. cbv zeta.
  rewrite !(bind_ok _ _ _ _ _ (fire_run g)). cbv beta.
  assert (E : Dict.get attack_templates element fire_attacks
              = Dict.get attack_templates "Fire" fire_attacks)
    by (unfold Dict.get; rewrite Hnone; reflexivity).
  rewrite E. reflexivity.
Qed.

Lemma attacks_unknown_element_witness :
  generate_contextual_attacks (extract_creature_characteristics rock_prompt)
    "Metal" 40 "Rare" zeros
  = generate_contextual_attacks (extract_creature_characteristics rock_prompt)
      "Fire" 40 "Rare" zeros.
Proof.
  apply attacks_unknown_element. reflexivity.
Defined.

(** ** The attacks of a card *)

(** What holds of the generic list and of every list of the table holds
    of the lists the two attacks are drawn from. *)
Lemma reachable_templates_ind (P : list Template -> Prop) :
  P generic_strike ->
  (forall e d k l, In (e, d) attack_templates -> In (k, l) d -> P l) ->
  forall element primary_style,
    P (primary_templates (element_attacks_of element) primary_style) /\
    forall secondary_style,
      P (secondary_templates (element_attacks_of element) secondary_style
           (primary_templates (element_attacks_of element) primary_style)).
Proof.
  intros Hgeneric Htable element primary_style.
  assert (Hea : forall k l, In (k, l) (element_attacks_of element) -> P l).
  { unfold element_attacks_of.
    pattern (Dict.get attack_templates element fire_attacks).
    apply get_ind.
    - intros k l. apply (Htable "Fire" fire_attacks). left. reflexivity.
    - intros e d Hin k l. apply (Htable e d). exact Hin. }
  assert (Hprimary : P (primary_templates (element_attacks_of element) primary_style)).
  { unfold primary_templates. apply get_ind; [| exact Hea].
    apply get_ind; [exact Hgeneric | exact Hea]. }
  split; [exact Hprimary |].
  intros secondary_style. unfold secondary_templates.
  apply get_ind; [exact Hprimary | exact Hea].
Qed.

Lemma attack_templates_in_range :
  forallb (fun ea => forallb (fun kv => single_in_range (snd kv)) (snd ea)) attack_templates
  = true.
Proof. vm_compute. reflexivity. Qed.

Lemma reachable_single_in_range element primary_style :
  single_in_range (primary_templates (element_attacks_of element) primary_style) = true /\
  forall secondary_style,
    single_in_range
      (secondary_templates (element_attacks_of element) secondary_style
         (primary_templates (element_attacks_of element) primary_style)) = true.
Proof.
  apply (reachable_templates_ind (fun l => single_in_range l = true)).
  - vm_compute. reflexivity.
  - intros e d k l He Hk. pose proof attack_templates_in_range as H.
    rewrite forallb_forall in H. specialize (H _ He).
    rewrite forallb_forall in H. exact (H _ Hk).
Qed.

Lemma in_range_Z_elim lo hi o s :
  in_range_Z lo hi o = true -> o = inr s -> lo <= s <= hi.
Proof.
  intros H ->. simpl in H. apply andb_true_iff in H as [H1 H2]. lia.
Qed.

Lemma single_in_range_elim l :
  single_in_range l = true ->
  exists n b d,
    l = [(n, b, d)] /\ n <> "Basic Strike" /\
    forall dm, In dm (map snd damage_multipliers) ->
      in_range_Z 22 65 (int_of_float (Float.mul (Float.of_int b) dm)) = true /\
      in_range_Z 18 52
        (int_of_float (Float.mul (Float.mul (Float.of_int b) dm) (Float.lit 8 10))) = true.
Proof.
  destruct l as [| [[n b] d] [| t l]]; try discriminate.
  cbn [single_in_range template_in_range]. intros H.
  apply andb_true_iff in H as [Hn Hall].
  exists n, b, d. split; [reflexivity |]. split.
  - apply negb_true_iff, String.eqb_neq in Hn. exact Hn.
  - intros dm Hdm. rewrite forallb_forall in Hall. specialize (Hall _ Hdm).
    apply andb_true_iff in Hall. exact Hall.
Qed.

(** The two attacks of a card: the templates they are, and their
    damages. *)
Lemma card_attacks_shape image_url prompt g :
  let analysis := simulate_vision_analysis image_url prompt in
  let styles := combat_styles (creature_characteristics analysis) in
  let element_attacks := element_attacks_of (detected_element analysis) in
  let style_attacks := primary_templates element_attacks (primary_style_of styles) in
  exists card a1 a2 n1 b1 d1,
    result (analyze_image_and_generate_stats image_url prompt g) = Ok card /\
    20 <= CardMetadata.hp card <= 150 /\
    CardMetadata.type card = detected_element analysis /\
    CardMetadata.attacks card = [a1; a2] /\
    style_attacks = [(n1, b1, d1)] /\
    Attack.name a1 = n1 /\ Attack.description a1 = d1 /\ n1 <> "Basic Strike" /\
    22 <= Attack.damage a1 <= 65 /\
    (if offensive (drop 5 g)
     then exists n2 b2 d2,
         secondary_templates element_attacks (secondary_style_of styles) style_attacks
         = [(n2, b2, d2)] /\
         Attack.name a2 = n2 /\ Attack.description a2 = d2 /\ n2 <> "Basic Strike" /\
         18 <= Attack.damage a2 <= 52
     else In a2 (utility_actions (CardMetadata.hp card))).
Proof.
  intros analysis styles element_attacks style_attacks.
  destruct (synthesis_returns image_url prompt g) as [card [s0 [dm [Hrun [_ [Hdm Hpost]]]]]].
  destruct Hpost as [Hhp [Htype [_ [_ [Hattacks _]]]]].
  destruct Hattacks as [a1 [a2 [Heq [Hfirst Hsecond]]]].
  change (offensive (drop 1 (drop 4 g))) with (offensive (drop 5 g)) in Hsecond.
  fold analysis in Hfirst, Hsecond. fold styles in Hfirst, Hsecond.
  fold element_attacks in Hfirst, Hsecond. fold style_attacks in Hfirst, Hsecond.
  assert (Hdm_in : In dm (map snd damage_multipliers)).
  { apply find_In in Hdm. apply (in_map snd) in Hdm. exact Hdm. }
  destruct (reachable_single_in_range (detected_element analysis) (primary_style_of styles))
    as [Hp Hs].
  fold element_attacks in Hp, Hs. fold style_attacks in Hp, Hs.
  specialize (Hs (secondary_style_of styles)).
  apply single_in_range_elim in Hp as [n1 [b1 [d1 [E1 [Hn1 Hr1]]]]].
  apply single_in_range_elim in Hs as [n2 [b2 [d2 [E2 [Hn2 Hr2]]]]].
  destruct Hfirst as [n [b [d [s [Hin [Hs1 Ha1]]]]]].
  rewrite E1 in Hin. destruct Hin as [[= <- <- <-] | []].
  destruct (Hr1 _ Hdm_in) as [R1 _].
  pose proof (in_range_Z_elim _ _ _ _ R1 Hs1) as Hb1.
  exists card, a1, a2, n1, b1, d1.
  split; [exact Hrun |]. split; [rewrite Hhp; lia |]. split; [exact Htype |].
  split; [exact Heq |]. split; [exact E1 |].
  split; [rewrite Ha1; reflexivity |]. split; [rewrite Ha1; reflexivity |].
  split; [exact Hn1 |].
  split; [rewrite Ha1; simpl; lia |].
  destruct (offensive (drop 5 g)).
  - destruct Hsecond as [n [b [d [s' [Hin [Hs2 Ha2]]]]]].
    rewrite E2 in Hin. destruct Hin as [[= <- <- <-] | []].
    destruct (Hr2 _ Hdm_in) as [_ R2].
    pose proof (in_range_Z_elim _ _ _ _ R2 Hs2) as Hb2.
    exists n2, b2, d2. split; [exact E2 |].
    split; [rewrite Ha2; reflexivity |]. split; [rewrite Ha2; reflexivity |].
    split; [exact Hn2 |].
    rewrite Ha2. simpl. lia.
  - exact Hsecond.
Qed.

(** X9. The damage of the primary attack of every card is between 22 and
    65, and that of an offensive secondary attack between 18 and 52: with
    the templates and the multipliers of the tables, the lower clamps 15
    and 10 of the attack generator never change a damage. *)
Theorem attack_damage_range image_url prompt g :
  exists card a1 a2,
    result (analyze_image_and_generate_stats image_url prompt g) = Ok card /\
    CardMetadata.attacks card = [a1; a2] /\
    22 <= Attack.damage a1 <= 65 /\
    (if offensive (drop 5 g)
     then 18 <= Attack.damage a2 <= 52
     else Attack.damage a2 = 0).
Proof.
  destruct (card_attacks_shape image_url prompt g)
    as [card [a1 [a2 [n1 [b1 [d1 [Hrun [_ [_ [Heq [_ [_ [_ [_ [Hd1 Hsecond]]]]]]]]]]]]]]].
  exists card, a1, a2. split; [exact Hrun |]. split; [exact Heq |].
  split; [exact Hd1 |].
  destruct (offensive (drop 5 g)).
  - destruct Hsecond as [n2 [b2 [d2 [_ [_ [_ [_ Hd2]]]]]]]. exact Hd2.
  - simpl in Hsecond.
    repeat (destruct Hsecond as [<- | Hsecond]; [reflexivity |]). contradiction.
Qed.

(** X10. The second attack of a card has damage 0, that is, it is a
    utility action, exactly when the sixth draw is not below 0.7, which
    is [6305039478318694 / 2^53]; the first attack never has damage 0. *)
Theorem utility_iff_zero_damage image_url prompt g :
  exists card a1 a2,
    result (analyze_image_and_generate_stats image_url prompt g) = Ok card /\
    CardMetadata.attacks card = [a1; a2] /\
    0 < Attack.damage a1 /\
    (Attack.damage a2 = 0 <-> 6305039478318694 <= g 5%nat mod 2 ^ 53).
Proof.
  destruct (card_attacks_shape image_url prompt g)
    as [card [a1 [a2 [n1 [b1 [d1 [Hrun [_ [_ [Heq [_ [_ [_ [_ [Hd1 Hsecond]]]]]]]]]]]]]]].
  exists card, a1, a2. split; [exact Hrun |]. split; [exact Heq |].
  split; [lia |].
  pose proof (offensive_threshold (drop 5 g)) as Hth.
  change (drop 5 g O) with (g 5%nat) in Hth.
  destruct (offensive (drop 5 g)); symmetry in Hth.
  - apply Z.ltb_lt in Hth.
    destruct Hsecond as [n2 [b2 [d2 [_ [_ [_ [_ Hd2]]]]]]]. lia.
  - apply Z.ltb_ge in Hth. split; [intros _; exact Hth | intros _].
    simpl in Hsecond.
    repeat (destruct Hsecond as [<- | Hsecond]; [reflexivity |]). contradiction.
Qed.

(** X11. A utility second attack is one of [Regenerate], [Fortify] and
    [Power Up]; the amount [Regenerate] announces is a fifth of the hp of
    the card it is on, rounded down, between 4 and 30. *)
Theorem utility_action_of_card image_url prompt g :
  offensive (drop 5 g) = false ->
  exists card a1 a2,
    result (analyze_image_and_generate_stats image_url prompt g) = Ok card /\
    CardMetadata.attacks card = [a1; a2] /\
    In a2 [ Attack.mk "Regenerate" 0
              ("Restores " ++ Str.of_int (CardMetadata.hp card / 5) ++ " HP");
            Attack.mk "Fortify" 0 "Reduces next attack by 50%";
            Attack.mk "Power Up" 0 "Next attack deals double damage" ] /\
    4 <= CardMetadata.hp card / 5 <= 30.
Proof.
  intros Hoff.
  destruct (card_attacks_shape image_url prompt g)
    as [card [a1 [a2 [n1 [b1 [d1 [Hrun [Hhp [_ [Heq [_ [_ [_ [_ [_ Hsecond]]]]]]]]]]]]]]].
  rewrite Hoff in Hsecond.
  exists card, a1, a2. split; [exact Hrun |]. split; [exact Heq |].
  split; [exact Hsecond |].
  split; [apply Z.div_le_lower_bound; lia | apply Z.div_le_upper_bound; lia].
Qed.

Lemma utility_action_of_card_witness :
  exists card a1 a2,
    result (analyze_image_and_generate_stats "" rock_prompt utility_draws) = Ok card /\
    CardMetadata.attacks card = [a1; a2] /\
    In a2 [ Attack.mk "Regenerate" 0
              ("Restores " ++ Str.of_int (CardMetadata.hp card / 5) ++ " HP");
            Attack.mk "Fortify" 0 "Reduces next attack by 50%";
            Attack.mk "Power Up" 0 "Next attack deals double damage" ] /\
    4 <= CardMetadata.hp card / 5 <= 30.
Proof.
  apply (utility_action_of_card "" rock_prompt utility_draws).
  vm_compute. reflexivity.
Defined.

Lemma secondary_same_style element_attacks style :
  secondary_templates element_attacks style (primary_templates element_attacks style)
  = primary_templates element_attacks style.
Proof.
  unfold secondary_templates, primary_templates, Dict.get.
  destruct (Dict.find element_attacks style); reflexivity.
Qed.

(** X12. When [magic] is the only combat style detected and the second
    attack is offensive, the two attacks of the card are the same
    template, name and description: the second style defaults to [magic]
    again, and only the damage differs. *)
Theorem magic_attack_twice image_url prompt g :
  combat_styles (extract_creature_characteristics prompt) = ["magic"] ->
  offensive (drop 5 g) = true ->
  exists card a1 a2,
    result (analyze_image_and_generate_stats image_url prompt g) = Ok card /\
    CardMetadata.attacks card = [a1; a2] /\
    Attack.name a1 = Attack.name a2 /\
    Attack.description a1 = Attack.description a2.
Proof.
  intros Hstyles Hoff.
  destruct (card_attacks_shape image_url prompt g)
    as [card [a1 [a2 [n1 [b1 [d1 [Hrun [_ [_ [Heq [E1 [Hn [Hd [_ [_ Hsecond]]]]]]]]]]]]]]].
  rewrite Hoff in Hsecond.
  destruct Hsecond as [n2 [b2 [d2 [E2 [Hn2 [Hd2 _]]]]]].
  change (combat_styles (creature_characteristics (simulate_vision_analysis image_url prompt)))
    with (combat_styles (extract_creature_characteristics prompt)) in E1, E2.
  rewrite Hstyles in E1, E2.
  change (secondary_style_of ["magic"]) with "magic" in E2.
  change (primary_style_of ["magic"]) with "magic" in E1, E2.
  rewrite secondary_same_style, E1 in E2. injection E2 as <- <- <-.
  exists card, a1, a2. split; [exact Hrun |]. split; [exact Heq |].
  split; congruence.
Qed.

Lemma magic_attack_twice_witness :
  exists card a1 a2,
    result (analyze_image_and_generate_stats "" "an enchanted owl" zeros) = Ok card /\
    CardMetadata.attacks card = [a1; a2] /\
    Attack.name a1 = Attack.name a2 /\
    Attack.description a1 = Attack.description a2.
Proof.
  apply (magic_attack_twice "" "an enchanted owl" zeros); vm_compute; reflexivity.
Defined.

(** X13. No card has an attack called [Basic Strike]: in the engine the
    attack generator always has two attacks before it comes to its
    fallback, which is dead code there. *)
Theorem basic_strike_never image_url prompt g :
  exists card,
    result (analyze_image_and_generate_stats image_url prompt g) = Ok card /\
    forall a, In a (CardMetadata.attacks card) -> Attack.name a <> "Basic Strike".
Proof.
  destruct (card_attacks_shape image_url prompt g)
    as [card [a1 [a2 [n1 [b1 [d1 [Hrun [_ [_ [Heq [_ [Hn [_ [Hn1 [_ Hsecond]]]]]]]]]]]]]]].
  exists card. split; [exact Hrun |].
  rewrite Heq. intros a [<- | [<- | []]].
  - rewrite Hn. exact Hn1.
  - destruct (offensive (drop 5 g)).
    + destruct Hsecond as [n2 [b2 [d2 [_ [Hn2 [_ [Hne _]]]]]]]. rewrite Hn2. exact Hne.
    + simpl in Hsecond.
      repeat (destruct Hsecond as [<- | Hsecond]; [discriminate |]). contradiction.
Qed.

(** ** The classification *)

(** X14. The combat styles of a prompt are the styles whose cue words
    occur in it, listed in the fixed order slashing, fire, magic, biting,
    whatever the order of the cue words in the prompt, and [physical]
    alone when there is none: no style is listed twice, and [physical]
    is never listed with another style.  The primary attack follows that
    order, not the prompt's. *)
Theorem combat_styles_order prompt :
  let styles := combat_styles (extract_creature_characteristics prompt) in
  styles = match detected_styles (Str.lower prompt) with
           | [] => ["physical"]
           | l => l
           end /\
  NoDup styles /\
  (In "physical" styles -> styles = ["physical"]).
Proof.
  cbv zeta.
  cbn [extract_creature_characteristics combat_styles].
  unfold detected_styles, style_cues. cbn [filter snd].
  destruct (any_in slashing_words (Str.lower prompt)),
           (any_in fire_words (Str.lower prompt)),
           (any_in magic_words (Str.lower prompt)),
           (any_in biting_words (Str.lower prompt));
    cbn [map fst app];
    (split; [reflexivity |]);
    (split;
     [ repeat constructor; simpl; intuition discriminate
     | simpl; intuition discriminate ]).
Qed.

(** The order of the cue words in the prompt does not matter. *)
Lemma combat_styles_order_witness :
  combat_styles (extract_creature_characteristics "fangs then fire then claws")
  = ["slashing"; "fire"; "biting"].
Proof.
  rewrite (proj1 (combat_styles_order "fangs then fire then claws")).
  vm_compute. reflexivity.
Defined.

(** X15. The primary attack of a card is the generic [Strike] exactly
    when the card is of type Fire or Water and no cue word of a combat
    style occurs in the prompt: those two elements have no [physical]
    templates.  A prompt without any keyword is of that kind. *)
Theorem generic_strike_iff image_url prompt g :
  exists card a1 a2,
    result (analyze_image_and_generate_stats image_url prompt g) = Ok card /\
    CardMetadata.attacks card = [a1; a2] /\
    (Attack.name a1 = "Strike" <->
     In (CardMetadata.type card) ["Fire"; "Water"] /\
     combat_styles (extract_creature_characteristics prompt) = ["physical"]).
Proof.
  destruct (card_attacks_shape image_url prompt g)
    as [card [a1 [a2 [n1 [b1 [d1 [Hrun [_ [Htype [Heq [E1 [Hn _]]]]]]]]]]]].
  exists card, a1, a2. split; [exact Hrun |]. split; [exact Heq |].
  rewrite Hn, Htype. clear Hrun Heq Hn Htype.
  destruct (classification_range image_url prompt) as [_ [Helem _]].
  change (combat_styles (creature_characteristics (simulate_vision_analysis image_url prompt)))
    with (combat_styles (extract_creature_characteristics prompt)) in E1.
  revert E1 Helem.
  generalize (detected_element (simulate_vision_analysis image_url prompt)).
  intros element E1 Helem.
  cbn [extract_creature_characteristics combat_styles] in E1 |- *.
  destruct (any_in slashing_words (Str.lower prompt)),
           (any_in fire_words (Str.lower prompt)),
           (any_in magic_words (Str.lower prompt)),
           (any_in biting_words (Str.lower prompt));
    cbn [app] in E1 |- *;
    simpl in Helem;
    repeat (destruct Helem as [<- | Helem];
            [ vm_compute in E1; injection E1 as <- _ _;
              split;
              [ intros H;
                first [discriminate H | split; [simpl; auto | reflexivity]]
              | intros [Hin Hs];
                first [discriminate Hs | reflexivity
                      | simpl in Hin; intuition discriminate] ]
            | ]);
    contradiction.
Qed.

Lemma isspace_lower_char c : Str.isspace (Str.lower_char c) = Str.isspace c.
Proof.
  destruct c as [b0 b1 b2 b3 b4 b5 b6 b7].
  destruct b0, b1, b2, b3, b4, b5, b6, b7; vm_compute; reflexivity.
Qed.

Lemma is_empty_snoc w c : Str.is_empty (w ++ String c "") = false.
Proof. destruct w; reflexivity. Qed.

Lemma split_from_lower_length w w' s :
  Str.is_empty w = Str.is_empty w' ->
  List.length (Str.split_from w s) = List.length (Str.split_from w' (Str.lower s)).
Proof.
  revert w w'. induction s as [| c s IH]; intros w w' Hw; cbn [Str.split_from Str.lower].
  - rewrite Hw. destruct (Str.is_empty w'); reflexivity.
  - rewrite isspace_lower_char. destruct (Str.isspace c).
    + rewrite Hw. destruct (Str.is_empty w'); cbn [List.length];
        rewrite (IH "" "" eq_refl); reflexivity.
    + apply IH. rewrite !is_empty_snoc. reflexivity.
Qed.

(** Lower-casing a prompt does not change the number of its words. *)
Lemma split_lower_length s :
  List.length (Str.split s) = List.length (Str.split (Str.lower s)).
Proof. apply split_from_lower_length. reflexivity. Qed.

(** X16. The engine does not see the case of the letters: two prompts
    with the same lower-case form give, on the same draws, the same run
    and the same card. *)
Theorem synthesis_case_insensitive image_url1 image_url2 prompt1 prompt2 g :
  Str.lower prompt1 = Str.lower prompt2 ->
  analyze_image_and_generate_stats image_url1 prompt1 g
  = analyze_image_and_generate_stats image_url2 prompt2 g.
Proof.
  intros Hlower. unfold analyze_image_and_generate_stats.
  apply analyses_alike;
    cbn [simulate_vision_analysis extract_creature_characteristics apparent_power_level
         detected_element complexity_score creature_characteristics creature_type
         combat_styles];
    rewrite ?Hlower; try reflexivity.
  rewrite (split_lower_length prompt1), (split_lower_length prompt2), Hlower.
  reflexivity.
Qed.

Lemma synthesis_case_insensitive_witness :
  analyze_image_and_generate_stats "" "A Tiny FIRE Dragon" zeros
  = analyze_image_and_generate_stats "" "a tiny fire dragon" zeros.
Proof.
  apply synthesis_case_insensitive. vm_compute. reflexivity.
Defined.

(** ** Rarity and hp at the ends of the scales *)

Lemma short_never_legendary :
  forallb
    (fun c =>
       forallb
         (fun p => negb (String.eqb (rarity_of_score (rarity_score_of c p)) "Legendary"))
         power_values)
    short_complexities = true.
Proof. vm_compute. reflexivity. Qed.

(** X17. A prompt of at most five words never gives a Legendary card,
    whatever its keywords: its rarity score stays below 12. *)
Theorem short_prompt_never_legendary image_url prompt g :
  (List.length (Str.split prompt) <= 5)%nat ->
  exists card,
    result (analyze_image_and_generate_stats image_url prompt g) = Ok card /\
    CardMetadata.rarity card <> "Legendary".
Proof.
  intros Hwords.
  destruct (synthesis_returns image_url prompt g) as [card [s [dm [Hrun [_ [_ Hpost]]]]]].
  destruct Hpost as [_ [_ [Hrarity _]]].
  exists card. split; [exact Hrun |].
  rewrite Hrarity. unfold rarity_of_analysis.
  pose proof short_never_legendary as H. rewrite forallb_forall in H.
  assert (Hc : In (complexity_score (simulate_vision_analysis image_url prompt))
                  short_complexities).
  { cbn [simulate_vision_analysis complexity_score]. unfold short_complexities.
    set (n := List.length (Str.split prompt)) in *.
    set (bonus := if any_in complexity_words (Str.lower prompt) then 2 else 0).
    assert (Hb : 0 <= bonus <= 2) by (subst bonus; destruct (any_in _ _); lia).
    replace (Z.of_nat n + bonus) with (Z.of_nat (Z.to_nat (Z.of_nat n + bonus))) by lia.
    apply in_map, in_seq. lia. }
  specialize (H _ Hc). rewrite forallb_forall in H.
  specialize (H _ (power_multiplier_range image_url prompt)).
  apply negb_true_iff, String.eqb_neq in H. exact H.
Qed.

Lemma short_prompt_never_legendary_witness :
  exists card,
    result (analyze_image_and_generate_stats "" "legendary ancient giant dragon" zeros)
    = Ok card /\
    CardMetadata.rarity card <> "Legendary".
Proof.
  apply short_prompt_never_legendary. vm_compute. lia.
Defined.

Lemma detect_power_none items prompt_lower default :
  any_in (Dict.keys items) prompt_lower = false ->
  detect_power items prompt_lower default = default.
Proof.
  unfold any_in. induction items as [| [k v] items IH]; cbn [detect_power Dict.keys map existsb fst].
  - reflexivity.
  - intros H. apply orb_false_iff in H as [H1 H2]. rewrite H1. apply IH. exact H2.
Qed.

Lemma default_power_exact :
  forallb
    (fun b => match int_of_float (Float.mul (Float.of_int b) (Float.lit 10 10)) with
              | inr s => s =? b
              | inl _ => false
              end)
    hp_bases = true.
Proof. vm_compute. reflexivity. Qed.

(** X18. When no size keyword occurs in the prompt the multiplier is 1.0
    and neither the truncation nor the clamp changes anything: the hp of
    the card is the base hp drawn, between 40 and 150. *)
Theorem hp_without_size_keyword image_url prompt g :
  any_in (Dict.keys size_indicators) (Str.lower prompt) = false ->
  exists card,
    result (analyze_image_and_generate_stats image_url prompt g) = Ok card /\
    CardMetadata.hp card = base_hp_of g /\
    40 <= CardMetadata.hp card <= 150.
Proof.
  intros Hnone.
  destruct (synthesis_returns image_url prompt g) as [card [s [dm [Hrun [Hs [_ Hpost]]]]]].
  destruct Hpost as [Hhp _].
  exists card. split; [exact Hrun |].
  cbn [simulate_vision_analysis apparent_power_level] in Hs.
  rewrite (detect_power_none _ _ _ Hnone) in Hs.
  pose proof default_power_exact as H. rewrite forallb_forall in H.
  specialize (H _ (base_hp_in_bases g)). rewrite Hs in H. apply Z.eqb_eq in H.
  pose proof (base_hp_of_range g) as Hr.
  rewrite Hhp, H. destruct (low_range g); lia.
Qed.

Lemma hp_without_size_keyword_witness :
  exists card,
    result (analyze_image_and_generate_stats "" rock_prompt zeros) = Ok card /\
    CardMetadata.hp card = base_hp_of zeros /\
    40 <= CardMetadata.hp card <= 150.
Proof.
  apply hp_without_size_keyword. vm_compute. reflexivity.
Defined.

(** X19. The element of a prompt is Fire exactly when a keyword of Fire
    occurs in it or no keyword of any element does: Fire comes first in
    the table and is the default as well, so a keyword of another element
    decides only in the absence of every keyword of Fire. *)
Theorem fire_first_and_default image_url prompt :
  detected_element (simulate_vision_analysis image_url prompt) = "Fire" <->
  any_in fire_keywords (Str.lower prompt) = true \/
  no_keyword element_keywords (Str.lower prompt) = true.
Proof.
  cbn [simulate_vision_analysis detected_element].
  unfold no_keyword, element_keywords, fire_keywords.
  cbn [detect_element forallb snd].
  destruct (any_in ["fire"; "flame"; "lava"; "magma"; "ember"; "phoenix"; "dragon"] _);
    [split; [auto | reflexivity] |].
  repeat match goal with
         | |- context [any_in ?l ?p] => destruct (any_in l p)
         end;
    cbn [negb andb]; split;
    first [ intros H; vm_compute in H; discriminate H
          | intros [H | H]; discriminate H
          | intros _; right; reflexivity
          | reflexivity ].
Qed.


(** ** Floats that stay finite *)

Lemma fin_le E E' x : E <= E' -> fin E x -> fin E' x.
Proof. destruct x; simpl; intuition lia. Qed.

Lemma Zdigits2_nonneg m : 0 <= Zdigits2 m.
Proof. destruct m; simpl; lia. Qed.

Lemma Zdigits2_le_iff m k : 0 <= m -> 0 <= k -> (Zdigits2 m <= k <-> m < 2 ^ k).
Proof.
  intros Hm Hk. destruct m as [| p | p]; [| | lia].
  - simpl. split; intros _; [apply Z.pow_pos_nonneg; lia | exact Hk].
  - cbn [Zdigits2]. pose proof (digits2_pos_bounds p) as [Hlo Hhi]. split; intros H.
    + assert (2 ^ Zpos (digits2_pos p) <= 2 ^ k) by (apply Z.pow_le_mono_r; lia). lia.
    + destruct (Z.le_gt_cases (Zpos (digits2_pos p)) k) as [Hle | Hgt]; [exact Hle |].
      assert (2 ^ k <= 2 ^ (Zpos (digits2_pos p) - 1)) by (apply Z.pow_le_mono_r; lia).
      lia.
Qed.

Lemma shr_1_digits mrs :
  0 <= shr_m mrs ->
  0 <= shr_m (shr_1 mrs) /\
  Zdigits2 (shr_m (shr_1 mrs)) = Z.max 0 (Zdigits2 (shr_m mrs) - 1).
Proof.
  destruct mrs as [m r s]. cbn [shr_m]. intros Hm.
  destruct m as [| [p | p |] | p]; cbn [shr_1 shr_m Zdigits2 digits2_pos]; try lia.
Qed.

Lemma iter_shr_digits p mrs :
  0 <= shr_m mrs ->
  0 <= shr_m (iter_pos shr_1 p mrs) /\
  Zdigits2 (shr_m (iter_pos shr_1 p mrs)) = Z.max 0 (Zdigits2 (shr_m mrs) - Zpos p).
Proof.
  revert mrs. induction p as [p IH | p IH |]; intros mrs Hm; cbn [iter_pos].
  - destruct (shr_1_digits mrs Hm) as [H1 D1].
    destruct (IH _ H1) as [H2 D2]. destruct (IH _ H2) as [H3 D3].
    split; [exact H3 |]. rewrite D3, D2, D1. lia.
  - destruct (IH _ Hm) as [H2 D2]. destruct (IH _ H2) as [H3 D3].
    split; [exact H3 |]. rewrite D3, D2. lia.
  - destruct (shr_1_digits mrs Hm) as [H1 D1]. split; [exact H1 |]. rewrite D1. lia.
Qed.

Lemma shr_m_of_loc m l : shr_m (shr_record_of_loc m l) = m.
Proof. destruct l as [| []]; reflexivity. Qed.

Lemma shr_fexp_bounds m e l :
  0 <= m ->
  0 <= shr_m (fst (shr_fexp Float.prec Float.emax m e l)) /\
  Zdigits2 (shr_m (fst (shr_fexp Float.prec Float.emax m e l))) <= 53 /\
  snd (shr_fexp Float.prec Float.emax m e l)
  <= Z.max e (Z.max (Zdigits2 m + e - 53) (-1074)).
Proof.
  intros Hm. unfold shr_fexp, fexp, emin, Float.prec, Float.emax, shr.
  pose proof (Zdigits2_nonneg m) as Hd.
  destruct (Z.max (Zdigits2 m + e - 53) (3 - 1024 - 53) - e) as [| p | p] eqn:E;
    cbn [fst snd]; rewrite ?shr_m_of_loc.
  - repeat split; lia.
  - assert (H0 : 0 <= shr_m (shr_record_of_loc m l)) by (rewrite shr_m_of_loc; exact Hm).
    destruct (iter_shr_digits p _ H0) as [H1 D1]. rewrite shr_m_of_loc in D1.
    repeat split; [exact H1 | rewrite D1; lia | lia].
  - repeat split; lia.
Qed.

Lemma round_nearest_even_bounds m l :
  0 <= m -> Zdigits2 m <= 53 ->
  0 <= round_nearest_even m l /\ Zdigits2 (round_nearest_even m l) <= 54.
Proof.
  intros Hm Hd.
  assert (Hlt : m < 2 ^ 53) by (apply Zdigits2_le_iff; lia).
  assert (H1 : 0 <= m + 1 /\ Zdigits2 (m + 1) <= 54).
  { split; [lia |]. apply Zdigits2_le_iff; lia. }
  assert (H0 : 0 <= m /\ Zdigits2 m <= 54) by lia.
  unfold round_nearest_even. destruct l as [| []]; try assumption.
  destruct (Z.even m); assumption.
Qed.

(** Rounding a mantissa that is not too large gives a finite float. *)
Lemma binary_round_aux_fin s p e l E :
  Z.max e (Z.max (Zpos (digits2_pos p) + e - 53) (-1074)) + 1 <= E -> E <= 971 ->
  fin E (binary_round_aux Float.prec Float.emax s (Zpos p) e l).
Proof.
  intros HE H971. unfold binary_round_aux.
  pose proof (shr_fexp_bounds (Zpos p) e l ltac:(lia)) as [H1 [D1 B1]].
  destruct (shr_fexp Float.prec Float.emax (Zpos p) e l) as [mrs' e'].
  cbn [fst snd] in H1, D1, B1. cbn [Zdigits2] in B1.
  destruct (round_nearest_even_bounds (shr_m mrs') (loc_of_shr_record mrs') H1 D1)
    as [H2 D2].
  pose proof (shr_fexp_bounds (round_nearest_even (shr_m mrs') (loc_of_shr_record mrs'))
                e' loc_Exact H2) as [H3 [D3 B3]].
  destruct (shr_fexp Float.prec Float.emax
              (round_nearest_even (shr_m mrs') (loc_of_shr_record mrs')) e' loc_Exact)
    as [mrs'' e''].
  cbn [fst snd] in H3, D3, B3.
  destruct (shr_m mrs'') as [| m'' | m'']; [exact I | | lia].
  unfold Float.emax, Float.prec.
  replace (e'' <=? 1024 - 53) with true by (symmetry; apply Z.leb_le; lia).
  cbn [fin Zdigits2] in *. split; lia.
Qed.

Lemma mul_fin Ex Ey E x y :
  fin Ex x -> fin Ey y ->
  Z.max (Ex + Ey + 53) (-1074) + 1 <= E -> E <= 971 ->
  fin E (Float.mul x y).
Proof.
  intros Hx Hy HE H971.
  destruct x as [sx | sx | | sx mx ex], y as [sy | sy | | sy my ey];
    try contradiction; try exact I.
  destruct Hx as [Dx Hex], Hy as [Dy Hey].
  unfold Float.mul, SFmul. apply binary_round_aux_fin; [| exact H971].
  assert (Hmx : Zpos mx < 2 ^ 53) by (apply (Zdigits2_le_iff (Zpos mx)); [lia | lia | exact Dx]).
  assert (Hmy : Zpos my < 2 ^ 53) by (apply (Zdigits2_le_iff (Zpos my)); [lia | lia | exact Dy]).
  assert (Hd : Zpos (digits2_pos (mx * my)) <= 106).
  { apply (Zdigits2_le_iff (Zpos (mx * my))); [lia | lia |].
    rewrite Pos2Z.inj_mul. change (2 ^ 106) with (2 ^ 53 * 2 ^ 53). nia. }
  lia.
Qed.

Lemma shl_align_value m e e' :
  e' <= e ->
  Zpos (fst (shl_align m e e')) = Zpos m * 2 ^ (e - e') /\
  snd (shl_align m e e') = e'.
Proof.
  intros Hle. unfold shl_align.
  destruct (e' - e) as [| d | d] eqn:E; cbn [fst snd]; [| lia |].
  - replace (e - e') with 0 by lia. split; lia.
  - rewrite iter_xO_value. replace (e - e') with (Zpos d) by lia. split; reflexivity.
Qed.

Lemma shl_align_digits m e e' :
  Zpos (digits2_pos (fst (shl_align m e e'))) + snd (shl_align m e e')
  = Zpos (digits2_pos m) + e /\
  snd (shl_align m e e') <= e.
Proof.
  unfold shl_align.
  destruct (e' - e) as [| d | d] eqn:E; cbn [fst snd]; [lia | lia |].
  rewrite digits2_pos_iter_xO. lia.
Qed.

Lemma binary_round_fin s m e E :
  Z.max e (Z.max (Zpos (digits2_pos m) + e - 53) (-1074)) + 1 <= E -> E <= 971 ->
  fin E (binary_round Float.prec Float.emax s m e).
Proof.
  intros HE H971. unfold binary_round.
  pose proof (shl_align_digits m e
                (fexp Float.prec Float.emax (Zpos (digits2_pos m) + e))) as [Hd He].
  destruct (shl_align m e (fexp Float.prec Float.emax (Zpos (digits2_pos m) + e)))
    as [mz ez].
  cbn [fst snd] in Hd, He.
  apply binary_round_aux_fin; lia.
Qed.

Lemma binary_normalize_fin m e E :
  Z.max e (Z.max (Zdigits2 m + e - 53) (-1074)) + 1 <= E -> E <= 971 ->
  fin E (binary_normalize Float.prec Float.emax m e false).
Proof.
  intros HE H971. unfold binary_normalize.
  destruct m as [| p | p]; [exact I | |]; apply binary_round_fin; assumption.
Qed.

Lemma Zdigits2_abs m : Zdigits2 (Z.abs m) = Zdigits2 m.
Proof. destruct m; reflexivity. Qed.

Lemma add_fin Ex Ey E x y :
  fin Ex x -> fin Ey y ->
  Z.max (Z.max Ex Ey + 1) (-1074) + 1 <= E -> E <= 971 ->
  fin E (Float.add x y).
Proof.
  intros Hx Hy HE H971.
  destruct x as [sx | sx | | sx mx ex], y as [sy | sy | | sy my ey];
    try contradiction.
  - destruct sx, sy; exact I.
  - eapply fin_le; [| exact Hy]. lia.
  - eapply fin_le; [| exact Hx]. lia.
  - destruct Hx as [Dx Hex], Hy as [Dy Hey].
    unfold Float.add, SFadd. cbv zeta.
    destruct (shl_align_value mx ex (Z.min ex ey) ltac:(lia)) as [Vx _].
    destruct (shl_align_value my ey (Z.min ex ey) ltac:(lia)) as [Vy _].
    set (A := Zpos (fst (shl_align mx ex (Z.min ex ey)))) in *.
    set (B := Zpos (fst (shl_align my ey (Z.min ex ey)))) in *.
    assert (Hmx : Zpos mx < 2 ^ 53)
      by (apply (Zdigits2_le_iff (Zpos mx)); [lia | lia | exact Dx]).
    assert (Hmy : Zpos my < 2 ^ 53)
      by (apply (Zdigits2_le_iff (Zpos my)); [lia | lia | exact Dy]).
    set (M := Z.max ex ey).
    assert (HA : 0 < A < 2 ^ (53 + M - Z.min ex ey)).
    { split; [subst A; lia |]. rewrite Vx.
      assert (2 ^ (ex - Z.min ex ey) <= 2 ^ (M - Z.min ex ey))
        by (apply Z.pow_le_mono_r; subst M; lia).
      assert (0 < 2 ^ (ex - Z.min ex ey)) by (apply Z.pow_pos_nonneg; lia).
      replace (53 + M - Z.min ex ey) with (53 + (M - Z.min ex ey)) by lia.
      rewrite Z.pow_add_r by (subst M; lia). nia. }
    assert (HB : 0 < B < 2 ^ (53 + M - Z.min ex ey)).
    { split; [subst B; lia |]. rewrite Vy.
      assert (2 ^ (ey - Z.min ex ey) <= 2 ^ (M - Z.min ex ey))
        by (apply Z.pow_le_mono_r; subst M; lia).
      assert (0 < 2 ^ (ey - Z.min ex ey)) by (apply Z.pow_pos_nonneg; lia).
      replace (53 + M - Z.min ex ey) with (53 + (M - Z.min ex ey)) by lia.
      rewrite Z.pow_add_r by (subst M; lia). nia. }
    apply binary_normalize_fin; [| exact H971].
    assert (Hd : Zdigits2 (cond_Zopp sx A + cond_Zopp sy B) <= 54 + M - Z.min ex ey).
    { rewrite <- Zdigits2_abs. apply Zdigits2_le_iff; [lia | subst M; lia |].
      replace (54 + M - Z.min ex ey) with (Z.succ (53 + M - Z.min ex ey)) by lia.
      rewrite Z.pow_succ_r by (subst M; lia).
      unfold cond_Zopp. destruct sx, sy; lia. }
    subst M. lia.
Qed.

Lemma of_bits53_fin k : 0 <= k < 2 ^ 53 -> fin (-53) (Float.of_bits53 k).
Proof.
  intros Hk. destruct k as [| p | p]; [exact I | | lia].
  destruct (of_bits53_pos p) as [m [-> Hm]]; [lia |].
  pose proof (digits2_pos_bounds p) as [Hlo Hhi].
  assert (Hd : Zpos (digits2_pos p) <= 53).
  { destruct (Z.le_gt_cases (Zpos (digits2_pos p)) 53) as [H | H]; [exact H |].
    assert (2 ^ 53 <= 2 ^ (Zpos (digits2_pos p) - 1)) by (apply Z.pow_le_mono_r; lia).
    lia. }
  cbn [fin]. split; [| lia].
  apply (Zdigits2_le_iff (Zpos m)); [lia | lia |].
  rewrite Hm.
  replace (2 ^ 53) with (2 ^ Zpos (digits2_pos p) * 2 ^ (53 - Zpos (digits2_pos p))).
  - assert (0 < 2 ^ (53 - Zpos (digits2_pos p))) by (apply Z.pow_pos_nonneg; lia). nia.
  - rewrite <- Z.pow_add_r by lia. f_equal. lia.
Qed.

Lemma int_of_fin E x : fin E x -> exists z, int_of_float x = inr z.
Proof. destruct x; simpl; try contradiction; eauto. Qed.

Lemma finb_fin E x : finb E x = true -> fin E x.
Proof.
  destruct x; simpl; try discriminate; try exact (fun _ => I).
  intros H. apply andb_true_iff in H as [H1 H2]. split; lia.
Qed.

Lemma hp_bases_fin : forallb (fun b => finb (-45) (Float.of_int b)) hp_bases = true.
Proof. vm_compute. reflexivity. Qed.

(** ** generate_stats_from_analysis on any analysis *)

Lemma generate_stats_returns analysis g :
  fin 962 (apparent_power_level analysis) ->
  exists card s dm,
    generate_stats_from_analysis analysis g = Ok (card, drop 8 g) /\
    stats_post analysis s dm g card.
Proof.
  intros Hfin.
  pose proof hp_bases_fin as Hb. rewrite forallb_forall in Hb.
  specialize (Hb _ (base_hp_in_bases g)). apply finb_fin in Hb.
  assert (Hprod : fin 971 (Float.mul (Float.of_int (base_hp_of g))
                             (apparent_power_level analysis)))
    by (apply (mul_fin (-45) 962); [exact Hb | exact Hfin | lia | lia]).
  destruct (int_of_fin _ _ Hprod) as [s Hs].
  destruct (rarity_has_multiplier _ (rarity_of_score_range
              (rarity_score_of (complexity_score analysis) (apparent_power_level analysis))))
    as [dm [Hdm _]].
  pose proof (generate_stats_from_analysis_spec analysis s dm g Hs Hdm) as Hwp.
  apply wp_run in Hwp as [card [g' [Hrun [-> Hpost]]]].
  exists card, s, dm. auto.
Qed.



Lemma hp_bases_nan_inf :
  forallb
    (fun b =>
       match Float.mul (Float.of_int b) S754_nan,
             Float.mul (Float.of_int b) (S754_infinity false),
             Float.mul (Float.of_int b) (S754_infinity true) with
       | S754_nan, S754_infinity _, S754_infinity _ => true
       | _, _, _ => false
       end)
    hp_bases = true.
Proof. vm_compute. reflexivity. Qed.

Lemma random_run g :
  Random.random g = Ok (Float.of_bits53 (g O mod 2 ^ 53), drop 1 g).
Proof. reflexivity. Qed.

Lemma base_hp_run g :
  (if Float.ltb (Float.of_bits53 (g O mod 2 ^ 53)) (Float.lit 8 10)
   then Random.randint 40 100
   else Random.randint 100 150) (drop 1 g)
  = Ok (base_hp_of g, drop 2 g).
Proof.
  unfold base_hp_of, low_range.
  destruct (Float.ltb (Float.of_bits53 (g O mod 2 ^ 53)) (Float.lit 8 10)); reflexivity.
Qed.

(** X21. With a power level that is not a number,
    [generate_stats_from_analysis] raises ValueError, and with an
    infinite one OverflowError: the conversion [int] of the scaled hp
    fails, after two draws and before anything else is generated. *)
Theorem generate_stats_nan_inf analysis g :
  (apparent_power_level analysis = S754_nan ->
   generate_stats_from_analysis analysis g = Raise ValueError) /\
  (forall s, apparent_power_level analysis = S754_infinity s ->
   generate_stats_from_analysis analysis g = Raise OverflowError).
Proof.
  pose proof hp_bases_nan_inf as Hb. rewrite forallb_forall in Hb.
  specialize (Hb _ (base_hp_in_bases g)).
  assert (Hprefix : forall e,
    int_of_float (Float.mul (Float.of_int (base_hp_of g)) (apparent_power_level analysis))
    = inl e ->
    generate_stats_from_analysis analysis g = Raise e).
  { intros e He. unfold generate_stats_from_analysis. cbv zeta.
    rewrite (bind_ok _ _ _ _ _ (random_run g)).
    rewrite (bind_ok _ _ _ _ _ (base_hp_run g)).
    apply bind_raise. rewrite He. reflexivity. }
  split.
  - intros Hnan. apply Hprefix. rewrite Hnan.
    destruct (Float.mul (Float.of_int (base_hp_of g)) S754_nan);
      try discriminate Hb; reflexivity.
  - intros s Hinf. apply Hprefix. rewrite Hinf.
    destruct s.
    + destruct (Float.mul (Float.of_int (base_hp_of g)) S754_nan); try discriminate Hb;
        destruct (Float.mul (Float.of_int (base_hp_of g)) (S754_infinity false));
        try discriminate Hb;
        destruct (Float.mul (Float.of_int (base_hp_of g)) (S754_infinity true));
        try discriminate Hb; reflexivity.
    + destruct (Float.mul (Float.of_int (base_hp_of g)) S754_nan); try discriminate Hb;
        destruct (Float.mul (Float.of_int (base_hp_of g)) (S754_infinity false));
        try discriminate Hb; reflexivity.
Qed.

Lemma generate_stats_nan_inf_witness :
  generate_stats_from_analysis
    (mkAnalysis S754_nan "Fire" 3 (mkCharacteristics "beast" ["physical"] []) "") zeros
  = Raise ValueError /\
  generate_stats_from_analysis
    (mkAnalysis (S754_infinity false) "Fire" 3 (mkCharacteristics "beast" ["physical"] []) "")
    zeros
  = Raise OverflowError.
Proof.
  split.
  - apply (proj1 (generate_stats_nan_inf
                    (mkAnalysis S754_nan "Fire" 3
                       (mkCharacteristics "beast" ["physical"] []) "") zeros)).
    reflexivity.
  - apply (proj2 (generate_stats_nan_inf
                    (mkAnalysis (S754_infinity false) "Fire" 3
                       (mkCharacteristics "beast" ["physical"] []) "") zeros) false).
    reflexivity.
Defined.

(** ** generate_card_metadata *)

Lemma uniform_constants :
  finb (-53) (Float.lit 7 10) = true /\
  finb (-53) (float_sub (Float.lit 13 10) (Float.lit 7 10)) = true.
Proof. split; vm_compute; reflexivity. Qed.

(** The power level the legacy entry point draws is finite. *)
Lemma uniform_power_fin g :
  exists power,
    random_uniform (Float.lit 7 10) (Float.lit 13 10) g = Ok (power, drop 1 g) /\
    fin (-50) power.
Proof.
  eexists. split; [reflexivity |].
  destruct uniform_constants as [H7 Hc]. apply finb_fin in H7, Hc.
  assert (Hu : fin (-53) (Float.of_bits53 (g O mod 2 ^ 53)))
    by (apply of_bits53_fin, Z.mod_pos_bound; lia).
  apply (add_fin (-53) (-52)); [exact H7 | | lia | lia].
  apply (mul_fin (-53) (-53)); [exact Hc | exact Hu | lia | lia].
Qed.

(** X22. The legacy entry point [generate_card_metadata] returns a card
    for every prompt and all draws, of which it takes nine: the power
    level it draws is finite.  The card is of type Fire whatever the
    prompt, its hp is between 20 and 150 and it has two attacks. *)
Theorem generate_card_metadata_total prompt g :
  exists card,
    generate_card_metadata prompt g = Ok (card, drop 9 g) /\
    CardMetadata.type card = "Fire" /\
    20 <= CardMetadata.hp card <= 150 /\
    List.length (CardMetadata.attacks card) = 2%nat /\
    In (CardMetadata.rarity card) RARITIES.
Proof.
  destruct (uniform_power_fin g) as [power [Hrun Hfin]].
  unfold generate_card_metadata. rewrite (bind_ok _ _ _ _ _ Hrun). cbv zeta.
  set (analysis := mkAnalysis power "Fire" (Z.of_nat (List.length (Str.split prompt)))
                     (extract_creature_characteristics prompt) prompt).
  assert (Hfin' : fin 962 (apparent_power_level analysis))
    by (eapply fin_le; [| exact Hfin]; lia).
  destruct (generate_stats_returns analysis (drop 1 g) Hfin')
    as [card [s [dm [Hstats Hpost]]]].
  destruct Hpost as [Hhp [Htype [Hrar [_ [[a1 [a2 [Heq _]]] _]]]]].
  exists card. split; [exact Hstats |].
  split; [exact Htype |]. split; [rewrite Hhp; lia |].
  split; [rewrite Heq; reflexivity |].
  rewrite Hrar. apply rarity_of_score_range.
Qed.
